(** * qwish: a shallow embedding of the notification core

    Files embedded:
    - utils/notify.ts            computeNotifyUtc                (C1)
    - handlers/sender            sender                          (C2-C6)
    - queues/greeter.ts          enqueueGreeterMessage           (C6, C7)
    - handlers/scheduler         scheduler                       (C7)
    - handlers/dlqProcessor      dlqProcessor, checkServiceHealth (C8, C10)
    - lib/sqs.ts                 getMessageCount                 (C10)
    - handlers/healthCheck       status classification          (C9)

    Instants are integers of milliseconds since the Unix epoch, which is what
    [Date.getTime] and [dayjs().valueOf()] return; ISO strings written to the
    store are modelled by the instant they denote. *)

From Stdlib Require Import ZArith List Bool Lia String Ascii.
From stdpp Require Import base gmap strings sorting.

Open Scope Z_scope.

(* ------------------------------------------------------------------ *)
(** ** Calendar arithmetic (the parts of JS [Date] and dayjs used) *)

(** Proleptic Gregorian day number of a civil date, day 0 = 1970-01-01.
    Linear in [d], so it also computes JS [MakeDay] for an overflowing day. *)
Definition days_from_civil (y m d : Z) : Z :=
  let y' := if m <=? 2 then y - 1 else y in
  let era := y' / 400 in
  let yoe := y' - era * 400 in
  let mp := if 2 <? m then m - 3 else m + 9 in
  let doy := (153 * mp + 2) / 5 + d - 1 in
  let doe := yoe * 365 + yoe / 4 - yoe / 100 + doy in
  era * 146097 + doe - 719468.

(** Inverse of [days_from_civil]: (year, month, day) of a day number. *)
Definition civil_from_days (z : Z) : Z * Z * Z :=
  let z' := z + 719468 in
  let era := z' / 146097 in
  let doe := z' - era * 146097 in
  let yoe := (doe - doe / 1460 + doe / 36524 - doe / 146096) / 365 in
  let y := yoe + era * 400 in
  let doy := doe - (365 * yoe + yoe / 4 - yoe / 100) in
  let mp := (5 * doy + 2) / 153 in
  let d := doy - (153 * mp + 2) / 5 + 1 in
  let m := if mp <? 10 then mp + 3 else mp - 9 in
  (if m <=? 2 then y + 1 else y, m, d).

Definition ms_per_day : Z := 86400000.
Definition ms_per_minute : Z := 60000.

(** [dayjs(t).year()] on a host whose local zone is UTC (the Lambda runtime). *)
Definition year_of_ms (t : Z) : Z :=
  let '(y, _, _) := civil_from_days (t / ms_per_day) in y.

(** First instant of a UTC year. *)
Definition start_of_year_ms (y : Z) : Z := days_from_civil y 1 1 * ms_per_day.

Definition is_leap (y : Z) : bool :=
  ((y mod 4 =? 0) && negb (y mod 100 =? 0)) || (y mod 400 =? 0).

Definition days_in_month (y m : Z) : Z :=
  if m =? 2 then (if is_leap y then 29 else 28)
  else if (m =? 4) || (m =? 6) || (m =? 9) || (m =? 11) then 30 else 31.

(** A 'YYYY-MM-DD' string as dayjs parses it. *)
Record Date := mkDate { d_year : Z; d_month : Z; d_day : Z }.

(** An 'HH:mm' string. *)
Record HHMM := mkHHMM { t_hour : Z; t_minute : Z }.

(** [dayjs(date).year(y)]: dayjs sets year and month with the day of month
    clamped to the length of the target month, so Feb 29 becomes Feb 28 in
    a common year. *)
Definition dayjs_set_year (b : Date) (y : Z) : Date :=
  mkDate y (d_month b) (Z.min (d_day b) (days_in_month y (d_month b))).

(** The wall-clock reading `${YYYY-MM-DD}T${HH:mm}` as milliseconds of a
    UTC-like local time line. *)
Definition local_ms (b : Date) (t : HHMM) : Z :=
  days_from_civil (d_year b) (d_month b) (d_day b) * ms_per_day
  + t_hour t * 3600000 + t_minute t * ms_per_minute.

Section Timezones.

(** The IANA database as dayjs' timezone plugin consults it: the UTC offset
    in minutes that a zone has at a local wall-clock reading, or [None]
    when the zone name is unknown (dayjs.tz then throws a RangeError). *)
Variable tz_offset : string -> Z -> option Z.

(** [dayjs.tz(`${date}T${time}`, tz).utc().toISOString()]. *)
Definition dayjs_tz_utc (b : Date) (t : HHMM) (tz : string) : option Z :=
  let l := local_ms b t in
  match tz_offset tz l with
  | Some off => Some (l - off * ms_per_minute)
  | None => None
  end.

(** The candidate instant of [birthday] in year [y]. *)
Definition notify_for_year (birthday : Date) (tz : string) (t : HHMM) (y : Z)
  : option Z :=
  dayjs_tz_utc (dayjs_set_year birthday y) t tz.

(** utils/notify.ts, [computeNotifyUtc(birthday, tz, notifyLocalTime,
    referenceTimeIso)] with a valid reference instant; [None] is the
    RangeError raised for an unknown zone. *)
Definition computeNotifyUtc (birthday : Date) (tz : string) (t : HHMM)
  (reference : Z) : option Z :=
  let year := year_of_ms reference in
  match notify_for_year birthday tz t year with
  | None => None
  | Some notifyUtc =>
      if notifyUtc <? reference
      then notify_for_year birthday tz t (year + 1)
      else Some notifyUtc
  end.

End Timezones.

(** Time left from [r] to the end of its UTC year. *)
Definition ms_to_year_end (r : Z) : Z := start_of_year_ms (year_of_ms r + 1) - r.

(** A zone with one fixed offset (UTC, Pacific/Kiritimati, ...). *)
Definition fixed_zone (name : string) (off : Z) : string -> Z -> option Z :=
  fun tz _ => if String.eqb tz name then Some off else None.

(* ------------------------------------------------------------------ *)
(** ** Strings as the code builds them *)

Local Infix "+++" := String.append (at level 60, right associativity).

Fixpoint digits_of (fuel : nat) (n : Z) (acc : string) : string :=
  match fuel with
  | O => acc
  | S f =>
      let acc' := String (ascii_of_nat (48 + Z.to_nat (n mod 10))) acc in
      if n <? 10 then acc' else digits_of f (n / 10) acc'
  end.

(** [String(n)] of an integer number. *)
Definition js_number (n : Z) : string :=
  if n <? 0 then String "-" (digits_of 20 (- n) EmptyString)
  else digits_of 20 n EmptyString.

(** A template-literal hole holding a possibly undefined string. *)
Definition js_hole (o : option string) : string :=
  match o with Some s => s | None => "undefined" end.

(* ------------------------------------------------------------------ *)
(** ** Data model: types.ts and the DynamoDB items *)

(** types.ts, [MessageSendingStatus]. *)
Inductive MessageSendingStatus := Pending | Sending | Completed | Failed.

(** types.ts, [User] (audit timestamps omitted). *)
Record User := mkUser {
  u_id : string; u_firstName : string; u_lastName : string; u_timezone : string }.

(** A DynamoDB attribute value as this code stores it: strings, numbers,
    ISO instants, 'YYYY-MM-DD' dates, 'HH:mm' times, the user map under
    [data], and the status strings of [MessageSendingStatus]. *)
Inductive AttrValue :=
  | AStr (s : string)
  | ANum (n : Z)
  | AInstant (t : Z)
  | ADate (d : Date)
  | AClock (t : HHMM)
  | AUser (u : User)
  | AStatus (s : MessageSendingStatus).

(** A DynamoDB item: its attributes by name ([PK] and [SK] are the key). *)
Abbreviation Item := (gmap string AttrValue).
Abbreviation Key := (string * string)%type.
Abbreviation Store := (gmap Key Item).

Definition attr_str (it : Item) (a : string) : option string :=
  match it !! a with Some (AStr s) => Some s | _ => None end.
Definition attr_num (it : Item) (a : string) : option Z :=
  match it !! a with Some (ANum n) => Some n | _ => None end.
Definition attr_instant (it : Item) (a : string) : option Z :=
  match it !! a with Some (AInstant t) => Some t | _ => None end.
Definition attr_date (it : Item) (a : string) : option Date :=
  match it !! a with Some (ADate d) => Some d | _ => None end.
Definition attr_clock (it : Item) (a : string) : option HHMM :=
  match it !! a with Some (AClock t) => Some t | _ => None end.
Definition attr_user (it : Item) (a : string) : option User :=
  match it !! a with Some (AUser u) => Some u | _ => None end.
Definition attr_status (it : Item) (a : string) : option MessageSendingStatus :=
  match it !! a with Some (AStatus s) => Some s | _ => None end.

(** [UpdateExpression: "SET a = :a, ..."] applied to an item. *)
Definition apply_sets (it : Item) (sets : list (string * AttrValue)) : Item :=
  fold_left (fun acc '(a, v) => <[a := v]> acc) sets it.

(** UpdateCommand creates the item when the key is absent. *)
Definition new_item (pk sk : string) : Item :=
  <["SK" := AStr sk]> (<["PK" := AStr pk]> ∅).

(** queues/greeter.ts, [GreeterMessage] (the JSON body of a queue message). *)
Record GreeterMessage := mkGreeterMessage {
  gm_user : User;
  gm_pk : string;
  gm_sk : string;
  gm_eventType : option string;
  gm_eventDate : option Date;
  gm_notifyLocalTime : option HHMM;
  gm_lastSentYear : Z;
  gm_yearNow : Z }.

(** An SQS message with the FIFO attributes the code reads. *)
Record SqsMessage := mkSqsMessage {
  sm_body : GreeterMessage; sm_group : string; sm_dedup : string }.

(** The log lines that mark which branch a handler took. *)
Inductive LogLine :=
  | LogEventNotFound | LogDuplicateSkipped | LogInFlightSkipped
  | LogStuckMarkedForRetry | LogClaimLost | LogDuplicatePrevented
  | LogMetadataMissing | LogDlqEmpty | LogServiceUnhealthy.

(** The calls a handler makes to the outside world, in the order issued. *)
Inductive Effect :=
  | EDynamoGet (pk sk : string)
  | EDynamoUpdate (pk sk : string) (sets : list (string * AttrValue)) (conditional : bool)
  | EDynamoQuery (index : string)
  | ESqsGetQueueUrl (name : string)
  | ESqsGetAttributes (url : string)
  | ESqsSend (url : string) (m : SqsMessage)
  | ESqsReceive (url : string) (max : Z)
  | ESqsDelete (url : string) (receipt : Z)
  | EFetch (url : string) (headers : list (string * string)) (body : string)
  | ELog (l : LogLine).

(** The world one handler invocation runs against. Remote calls are
    numbered; [w_fails n] says whether call [n] throws, [w_http n] is the
    status of the HTTP response to call [n] ([None]: network error), and
    [w_others n] is what concurrent workers write to the table before call
    [n] reaches it. The clock is read once per [new Date()]/[Date.now()];
    it is held constant during an invocation. Queue URLs are the queue
    names. *)
Record World := mkWorld {
  w_store : Store;
  w_queues : gmap string (list (Z * SqsMessage));
  w_url_cache : list string;
  w_clock : Z;
  w_calls : nat;
  w_fails : nat -> bool;
  w_http : nat -> option Z;
  w_others : nat -> Store -> Store;
  w_next_id : Z;
  w_trace : list Effect }.

Definition set_store (s : Store) (w : World) : World :=
  mkWorld s (w_queues w) (w_url_cache w) (w_clock w) (w_calls w) (w_fails w)
    (w_http w) (w_others w) (w_next_id w) (w_trace w).
Definition set_queues (q : gmap string (list (Z * SqsMessage))) (w : World) : World :=
  mkWorld (w_store w) q (w_url_cache w) (w_clock w) (w_calls w) (w_fails w)
    (w_http w) (w_others w) (w_next_id w) (w_trace w).
Definition set_url_cache (c : list string) (w : World) : World :=
  mkWorld (w_store w) (w_queues w) c (w_clock w) (w_calls w) (w_fails w)
    (w_http w) (w_others w) (w_next_id w) (w_trace w).
Definition set_next_id (i : Z) (w : World) : World :=
  mkWorld (w_store w) (w_queues w) (w_url_cache w) (w_clock w) (w_calls w)
    (w_fails w) (w_http w) (w_others w) i (w_trace w).
(** Issue a remote call: number it and append it to the trace. *)
Definition issue (e : Effect) (w : World) : World :=
  mkWorld (w_store w) (w_queues w) (w_url_cache w) (w_clock w) (S (w_calls w))
    (w_fails w) (w_http w) (w_others w) (w_next_id w) (e :: w_trace w).
Definition add_log (l : LogLine) (w : World) : World :=
  mkWorld (w_store w) (w_queues w) (w_url_cache w) (w_clock w) (w_calls w)
    (w_fails w) (w_http w) (w_others w) (w_next_id w) (ELog l :: w_trace w).

(* ------------------------------------------------------------------ *)
(** ** The handler monad: state of the world and thrown errors *)

Inductive Exn :=
  | ConditionalCheckFailedException
  | Error (message : string).

Inductive Result (A : Type) := Ok (a : A) | Throw (e : Exn).
Arguments Ok {A} a.
Arguments Throw {A} e.

Definition M (A : Type) : Type := World -> Result A * World.

Definition ret {A} (a : A) : M A := fun w => (Ok a, w).
Definition throw {A} (e : Exn) : M A := fun w => (Throw e, w).
Definition bind {A B} (c : M A) (k : A -> M B) : M B :=
  fun w => match c w with
           | (Ok a, w') => k a w'
           | (Throw e, w') => (Throw e, w')
           end.
(** [try { c } catch (e) { h(e) }]. *)
Definition catch {A} (c : M A) (h : Exn -> M A) : M A :=
  fun w => match c w with
           | (Ok a, w') => (Ok a, w')
           | (Throw e, w') => h e w'
           end.

Declare Scope handler_scope.
Notation "x <- c ;; k" := (bind c (fun x => k))
  (at level 100, c at next level, right associativity) : handler_scope.
Notation "c ;; k" := (bind c (fun _ => k))
  (at level 100, right associativity) : handler_scope.
Open Scope handler_scope.

Definition now : M Z := fun w => (Ok (w_clock w), w).
Definition log (l : LogLine) : M unit := fun w => (Ok tt, add_log l w).

(** The table as call [n] sees it, after concurrent writers. *)
Definition seen (w : World) : Store := w_others w (w_calls w) (w_store w).

(** An AWS SDK call: [op] runs on the table as the call sees it, unless the
    call throws a service error. *)
Definition aws_call {A} (e : Effect) (op : World -> Result A * World) : M A :=
  fun w =>
    let n := w_calls w in
    let w1 := issue e (set_store (seen w) w) in
    if w_fails w n then (Throw (Error "AWS service error"), w1) else op w1.

(** [GetCommand]. *)
Definition dynamo_get (pk sk : string) : M (option Item) :=
  aws_call (EDynamoGet pk sk) (fun w => (Ok (w_store w !! (pk, sk)), w)).

(** [UpdateCommand] with an optional [ConditionExpression]. *)
Definition dynamo_update (pk sk : string) (sets : list (string * AttrValue))
  (cond : option (option Item -> bool)) : M unit :=
  aws_call (EDynamoUpdate pk sk sets (if cond then true else false)) (fun w =>
    let cur := w_store w !! (pk, sk) in
    let holds := match cond with Some c => c cur | None => true end in
    if holds
    then (Ok tt, set_store (<[(pk, sk) := apply_sets (default (new_item pk sk) cur) sets]>
                             (w_store w)) w)
    else (Throw ConditionalCheckFailedException, w)).

(** [QueryCommand] on the secondary index; [page] is its answer on the table. *)
Definition dynamo_query {A} (index : string) (page : Store -> A) : M A :=
  aws_call (EDynamoQuery index) (fun w => (Ok (page (w_store w)), w)).

(** lib/sqs.ts, [getQueueUrl] with its cache. *)
Definition getQueueUrl (name : string) : M string :=
  fun w =>
    if decide (name ∈ w_url_cache w) then (Ok name, w)
    else aws_call (ESqsGetQueueUrl name)
           (fun w' => (Ok name, set_url_cache (name :: w_url_cache w') w')) w.

Definition queue (w : World) (url : string) : list (Z * SqsMessage) :=
  default [] (w_queues w !! url).

(** [GetQueueAttributes(ApproximateNumberOfMessages)] read with [parseInt]. *)
Definition sqs_message_count (url : string) : M Z :=
  aws_call (ESqsGetAttributes url) (fun w => (Ok (Z.of_nat (length (queue w url))), w)).

(** [SendMessageCommand]. *)
Definition sqs_send (url : string) (m : SqsMessage) : M unit :=
  aws_call (ESqsSend url m) (fun w =>
    (Ok tt, set_next_id (w_next_id w + 1)
              (set_queues (<[url := queue w url ++ [(w_next_id w, m)]]> (w_queues w)) w))).

(** [ReceiveMessageCommand]: up to [max] messages, left in the queue. *)
Definition sqs_receive (url : string) (max : Z) : M (list (Z * SqsMessage)) :=
  aws_call (ESqsReceive url max) (fun w => (Ok (take (Z.to_nat max) (queue w url)), w)).

(** [DeleteMessageCommand] by receipt handle. *)
Definition sqs_delete (url : string) (receipt : Z) : M unit :=
  aws_call (ESqsDelete url receipt) (fun w =>
    (Ok tt, set_queues (<[url := List.filter (fun p => negb (p.1 =? receipt)) (queue w url)]>
                          (w_queues w)) w)).

(** [fetch(url, { method: 'POST', headers, body })] resolving to the status. *)
Definition fetch (url : string) (headers : list (string * string)) (body : string) : M Z :=
  fun w =>
    let n := w_calls w in
    let w1 := issue (EFetch url headers body) w in
    match w_http w n with
    | Some status => (Ok status, w1)
    | None => (Throw (Error "fetch failed"), w1)
    end.

(** The sort order of the secondary index. *)
Definition notify_le (a b : Item) : Prop :=
  default 0 (attr_instant a "notifyUtc") <= default 0 (attr_instant b "notifyUtc").

#[export] Instance notify_le_dec : RelDecision notify_le :=
  fun a b => decide (default 0 (attr_instant a "notifyUtc")
                     <= default 0 (attr_instant b "notifyUtc")).

(* ------------------------------------------------------------------ *)
(** ** Handlers *)

Section Handlers.

Variable tz_offset : string -> Z -> option Z.
(** [process.env.HOOKBIN_URL], [GREETER_QUEUE_NAME], [DLQ_QUEUE_NAME]. *)
Variable HOOKBIN_URL GREETER_QUEUE_NAME DLQ_QUEUE_NAME : string.

(** *** queues/greeter.ts *)

(** The event fields the scheduler passes to [enqueueGreeterMessage]. *)
Record GreeterEvent := mkGreeterEvent {
  ge_pk : string; ge_sk : string; ge_type : option string; ge_date : option Date;
  ge_notifyLocalTime : option HHMM; ge_lastSentYear : Z }.

Definition greeter_message (user : User) (ev : GreeterEvent) (yearNow : Z) : GreeterMessage :=
  mkGreeterMessage user (ge_pk ev) (ge_sk ev) (ge_type ev) (ge_date ev)
    (ge_notifyLocalTime ev) (ge_lastSentYear ev) yearNow.

(** [MessageDeduplicationId: `${user.id}-${event.type}-${yearNow}`]. *)
Definition dedup_id (user : User) (ev : GreeterEvent) (yearNow : Z) : string :=
  u_id user +++ "-" +++ js_hole (ge_type ev) +++ "-" +++ js_number yearNow.

Definition enqueueGreeterMessage (user : User) (ev : GreeterEvent) : M unit :=
  t <- now ;;
  let yearNow := year_of_ms t in
  queueUrl <- getQueueUrl GREETER_QUEUE_NAME ;;
  sqs_send queueUrl (mkSqsMessage (greeter_message user ev yearNow)
                       (js_hole (ge_type ev)) (dedup_id user ev yearNow)).

(** *** handlers/sender *)

Definition STUCK_TIMEOUT_MS : Z := 5 * 60 * 1000.

Definition fullName (m : GreeterMessage) : string :=
  u_firstName (gm_user m) +++ " " +++ u_lastName (gm_user m).

(** [Idempotency-Key: `${pk}-${eventType}-${yearNow}`]. *)
Definition idempotency_key (m : GreeterMessage) : string :=
  gm_pk m +++ "-" +++ js_hole (gm_eventType m) +++ "-" +++ js_number (gm_yearNow m).

(** The [message] field of the webhook body. *)
Definition greeting (m : GreeterMessage) : string :=
  "Hey " +++ fullName m +++ ", it's your " +++ js_hole (gm_eventType m) +++ "!".

Definition webhook_headers (m : GreeterMessage) : list (string * string) :=
  [("Content-Type", "application/json"); ("Idempotency-Key", idempotency_key m)].

(** [dayjs(undefined)] is the current date. *)
Definition date_of_ms (t : Z) : Date :=
  let '(y, mo, d) := civil_from_days (t / ms_per_day) in mkDate y mo d.

(** [nextNotifyUtc]: the event's date in [yearNow + 1] at the local time;
    [None] when dayjs throws (unknown zone, or an undefined time gives an
    invalid date and [toISOString] throws). *)
Definition next_notify_utc (m : GreeterMessage) (t : Z) : option Z :=
  match gm_notifyLocalTime m with
  | None => None
  | Some hm =>
      let d := match gm_eventDate m with Some d => d | None => date_of_ms t end in
      dayjs_tz_utc tz_offset (dayjs_set_year d (gm_yearNow m + 1)) hm
        (u_timezone (gm_user m))
  end.

Definition stuck_reason : string :=
  "Stuck in sending state - likely webhook timeout or Lambda crash".

Definition stuck_sets (t : Z) : list (string * AttrValue) :=
  [("sendingStatus", AStatus Failed); ("markedFailedAt", AInstant t);
   ("failureReason", AStr stuck_reason); ("updatedAt", AInstant t)].

(** Pre-step: load the event; [None] is [continue], [Some c] proceeds to
    the claim with [currentLastSentYear = c]. *)
Definition sender_prestep (m : GreeterMessage) : M (option Z) :=
  r <- dynamo_get (gm_pk m) (gm_sk m) ;;
  match r with
  | None => log LogEventNotFound ;; ret None
  | Some currentEvent =>
      let currentLastSentYear := default 0 (attr_num currentEvent "lastSentYear") in
      let currentSendingStatus := attr_status currentEvent "sendingStatus" in
      let sendingAttemptedAt := attr_instant currentEvent "sendingAttemptedAt" in
      if (gm_yearNow m <=? currentLastSentYear)
         && (match currentSendingStatus with Some Completed => true | _ => false end)
      then log LogDuplicateSkipped ;; ret None
      else
        match currentSendingStatus, sendingAttemptedAt with
        | Some Sending, Some attemptedAt =>
            t <- now ;;
            let elapsedMs := t - attemptedAt in
            if elapsedMs <? STUCK_TIMEOUT_MS
            then log LogInFlightSkipped ;; ret None
            else
              catch (t' <- now ;; dynamo_update (gm_pk m) (gm_sk m) (stuck_sets t') None)
                    (fun _ => ret tt) ;;
              log LogStuckMarkedForRetry ;;
              ret (Some currentLastSentYear)
        | _, _ => ret (Some currentLastSentYear)
        end
  end.

(** [ConditionExpression: "lastSentYear = :currentLastSentYear AND
    (attribute_not_exists(sendingStatus) OR sendingStatus IN (:pending, :failed))"]. *)
Definition claim_condition (currentLastSentYear : Z) (cur : option Item) : bool :=
  match cur with
  | None => false
  | Some it =>
      match attr_num it "lastSentYear" with
      | Some n => n =? currentLastSentYear
      | None => false
      end &&
      match it !! "sendingStatus" with
      | None => true
      | Some (AStatus Pending) | Some (AStatus Failed) => true
      | Some _ => false
      end
  end.

Definition claim_sets (t yearNow nextNotifyUtc : Z) : list (string * AttrValue) :=
  [("sendingStatus", AStatus Sending); ("sendingAttemptedAt", AInstant t);
   ("lastSentYear", ANum yearNow); ("notifyUtc", AInstant nextNotifyUtc);
   ("updatedAt", AInstant t)].

(** Phase 1: the claim; [false] is the lost race ([continue]). *)
Definition sender_claim (m : GreeterMessage) (currentLastSentYear : Z) : M bool :=
  t <- now ;;
  match next_notify_utc m t with
  | None => throw (Error "RangeError: Invalid time value")
  | Some nextNotifyUtc =>
      catch (dynamo_update (gm_pk m) (gm_sk m) (claim_sets t (gm_yearNow m) nextNotifyUtc)
               (Some (claim_condition currentLastSentYear)) ;; ret true)
            (fun e => match e with
                      | ConditionalCheckFailedException => log LogClaimLost ;; ret false
                      | _ => throw e
                      end)
  end.

Definition failed_sets (t : Z) : list (string * AttrValue) :=
  [("sendingStatus", AStatus Failed); ("updatedAt", AInstant t)].

Definition completed_sets (t status : Z) : list (string * AttrValue) :=
  [("sendingStatus", AStatus Completed); ("sendingCompletedAt", AInstant t);
   ("webhookResponseCode", ANum status); ("webhookDeliveredAt", AInstant t);
   ("updatedAt", AInstant t)].

(** Phases 2 and 3: the webhook call and the completion mark. *)
Definition sender_deliver (m : GreeterMessage) : M unit :=
  status <- fetch HOOKBIN_URL (webhook_headers m) (greeting m) ;;
  if negb (status =? 200) then
    catch (t <- now ;; dynamo_update (gm_pk m) (gm_sk m) (failed_sets t) None)
          (fun _ => ret tt) ;;
    throw (Error ("Failed to send message to Hookbin for user " +++ fullName m))
  else
    catch (t <- now ;; dynamo_update (gm_pk m) (gm_sk m) (completed_sets t status) None)
          (fun _ => ret tt).

Definition claim_and_deliver (m : GreeterMessage) (currentLastSentYear : Z) : M unit :=
  won <- sender_claim m currentLastSentYear ;;
  if won then sender_deliver m else ret tt.

(** The handler's outer [catch (err)]: a conditional-check failure is a
    prevented duplicate, anything else is rethrown (SQS retry). *)
Definition sender_catch (e : Exn) : M unit :=
  match e with
  | ConditionalCheckFailedException => log LogDuplicatePrevented ;; ret tt
  | _ => throw e
  end.

(** One record of the SQS batch, with the handler's outer [try/catch]. *)
Definition sender_record (m : GreeterMessage) : M unit :=
  catch (p <- sender_prestep m ;;
         match p with
         | None => ret tt
         | Some currentLastSentYear => claim_and_deliver m currentLastSentYear
         end)
        sender_catch.

(** [sender(event)]: records in order; a thrown error ends the batch. *)
Fixpoint sender (records : list GreeterMessage) : M unit :=
  match records with
  | [] => ret tt
  | m :: rest => sender_record m ;; sender rest
  end.

(** *** handlers/scheduler *)

Definition ALL_EVENTS_INDEX : string := "AllEventsIndex".

(** The secondary index: items with [GSI1PK = "EVENT"] and a [notifyUtc],
    in [notifyUtc] order. *)
Definition index_items (s : Store) : list Item :=
  merge_sort notify_le
    (List.filter (fun it => bool_decide (attr_str it "GSI1PK" = Some "EVENT")
                            && bool_decide (is_Some (attr_instant it "notifyUtc")))
       (map snd (map_to_list s))).

(** One page of [KeyConditionExpression: 'GSI1PK = :pk AND notifyUtc <= :now',
    FilterExpression: 'attribute_not_exists(lastSentYear) OR lastSentYear < :year',
    Limit: 100]: the limit counts items read before the filter, and a
    [LastEvaluatedKey] (here the position reached) is returned whenever the
    limit was reached. *)
Definition due_page (nowUtc currentYear : Z) (start : nat) (s : Store)
  : list Item * option nat :=
  let matching := List.filter (fun it => default 0 (attr_instant it "notifyUtc") <=? nowUtc)
                    (index_items s) in
  let rest := drop start matching in
  (List.filter (fun it => match attr_num it "lastSentYear" with
                          | None => true
                          | Some y => y <? currentYear
                          end) (take 100 rest),
   if decide (100 <= length rest)%nat then Some (start + 100)%nat else None).

(** The body of the per-item [try]: [(1, 0)] enqueued, [(0, 0)] skipped for
    missing metadata, [(0, 1)] failed. *)
Definition schedule_item (eventItem : Item) : M (Z * Z) :=
  let pk := js_hole (attr_str eventItem "PK") in
  catch (metadataResult <- dynamo_get pk "METADATA" ;;
         match metadataResult ≫= fun it => attr_user it "data" with
         | None => log LogMetadataMissing ;; ret (0, 0)
         | Some userData =>
             enqueueGreeterMessage userData
               (mkGreeterEvent pk (js_hole (attr_str eventItem "SK"))
                  (attr_str eventItem "type") (attr_date eventItem "date")
                  (attr_clock eventItem "notifyLocalTime")
                  (default 0 (attr_num eventItem "lastSentYear"))) ;;
             ret (1, 0)
         end)
        (fun _ => ret (0, 1)).

Fixpoint schedule_items (events : list Item) : M (Z * Z) :=
  match events with
  | [] => ret (0, 0)
  | e :: rest =>
      r1 <- schedule_item e ;;
      r2 <- schedule_items rest ;;
      ret (r1.1 + r2.1, r1.2 + r2.2)
  end.

(** Counters: (totalUsersProcessed, totalEnqueueFailures, totalPages). *)
Record SchedulerStats := mkSchedulerStats {
  totalUsersProcessed : Z; totalEnqueueFailures : Z; totalPages : Z }.

(** The [do { ... } while (lastEvaluatedKey)] loop, run for at most [fuel]
    pages ([None]: the loop was still running). A failed page query throws
    out of the sweep. *)
Fixpoint scheduler_loop (fuel : nat) (nowUtc currentYear : Z) (lastEvaluatedKey : option nat)
  (st : SchedulerStats) : M (option SchedulerStats) :=
  match fuel with
  | O => ret None
  | S fuel' =>
      result <- dynamo_query ALL_EVENTS_INDEX
                  (due_page nowUtc currentYear (default 0%nat lastEvaluatedKey)) ;;
      counts <- schedule_items result.1 ;;
      let st' := mkSchedulerStats (totalUsersProcessed st + counts.1)
                   (totalEnqueueFailures st + counts.2) (totalPages st + 1) in
      match result.2 with
      | Some _ => scheduler_loop fuel' nowUtc currentYear result.2 st'
      | None => ret (Some st')
      end
  end.

Definition scheduler (fuel : nat) : M (option SchedulerStats) :=
  nowUtc <- now ;;
  let currentYear := year_of_ms nowUtc in
  scheduler_loop fuel nowUtc currentYear None (mkSchedulerStats 0 0 0).

(** *** lib/sqs.ts and handlers/dlqProcessor *)

(** lib/sqs.ts, [getMessageCount]: any error yields 0. *)
Definition getMessageCount (queueName : string) : M Z :=
  catch (queueUrl <- getQueueUrl queueName ;; sqs_message_count queueUrl)
        (fun _ => ret 0).

(** [checkServiceHealth]: a test POST; healthy iff the status is 200. *)
Definition checkServiceHealth : M bool :=
  catch (t <- now ;;
         status <- fetch HOOKBIN_URL [("Content-Type", "application/json")]
                     ("Health check from DLQ processor; timestamp " +++ js_number t
                      +++ "; test: true") ;;
         ret (status =? 200))
        (fun _ => ret false).

(** [a || b] on strings. *)
Definition js_or (a b : string) : string := if String.eqb a "" then b else a.

Definition redrive_one (dlqUrl greeterQueueUrl : string) (p : Z * SqsMessage) : M (Z * Z) :=
  let message := p.2 in
  catch (t <- now ;;
         sqs_send greeterQueueUrl
           (mkSqsMessage (sm_body message) (js_or (sm_group message) "birthday")
              (js_or (sm_dedup message) ("redrive-" +++ js_number t))) ;;
         sqs_delete dlqUrl p.1 ;;
         ret (1, 0))
        (fun _ => ret (0, 1)).

Fixpoint redrive_all (dlqUrl greeterQueueUrl : string) (ms : list (Z * SqsMessage))
  : M (Z * Z) :=
  match ms with
  | [] => ret (0, 0)
  | p :: rest =>
      r1 <- redrive_one dlqUrl greeterQueueUrl p ;;
      r2 <- redrive_all dlqUrl greeterQueueUrl rest ;;
      ret (r1.1 + r2.1, r1.2 + r2.2)
  end.

(** [redriveMessages(maxMessages)]: (redriven, failed). *)
Definition redriveMessages (maxMessages : Z) : M (Z * Z) :=
  catch (dlqUrl <- getQueueUrl DLQ_QUEUE_NAME ;;
         greeterQueueUrl <- getQueueUrl GREETER_QUEUE_NAME ;;
         messages <- sqs_receive dlqUrl maxMessages ;;
         redrive_all dlqUrl greeterQueueUrl messages)
        (fun _ => ret (0, 0)).

Record DLQStats := mkDLQStats {
  messagesInDLQ : Z; messagesProcessed : Z; messagesRedriven : Z;
  messagesFailed : Z; isServiceHealthy : bool }.

(** [dlqProcessor()]: (statusCode, message, stats). *)
Definition dlqProcessor : M (Z * string * DLQStats) :=
  catch (count <- getMessageCount DLQ_QUEUE_NAME ;;
         if count =? 0 then
           log LogDlqEmpty ;;
           ret (200, "DLQ is empty", mkDLQStats count 0 0 0 false)
         else
           healthy <- checkServiceHealth ;;
           if negb healthy then
             log LogServiceUnhealthy ;;
             ret (200, "Service unhealthy, redrive skipped", mkDLQStats count 0 0 0 false)
           else
             counts <- redriveMessages (Z.min count 10) ;;
             ret (200, "DLQ processing completed",
                  mkDLQStats count (counts.1 + counts.2) counts.1 counts.2 true))
        (fun _ => ret (500, "DLQ Processor failed", mkDLQStats 0 0 0 0 false)).


End Handlers.

(** *** handlers/healthCheck: the overall status *)

Inductive HealthStatus := Healthy | Warning | Critical.

Definition health_status {A B : Type} (missedEvents : list A) (stuckEvents : list B)
  : HealthStatus :=
  let missedCount := Z.of_nat (length missedEvents) in
  let stuckCount := Z.of_nat (length stuckEvents) in
  let totalIssues := missedCount + stuckCount in
  if (0 <? totalIssues) && (totalIssues <? 5) then Warning
  else if 5 <=? totalIssues then Critical
  else Healthy.

(* ------------------------------------------------------------------ *)
(** ** schema.ts: the [notifyLocalTime] pattern *)

(** [\d]: an ASCII decimal digit. *)
Definition is_digit (c : ascii) : bool :=
  (48 <=? nat_of_ascii c)%nat && (nat_of_ascii c <=? 57)%nat.

(** A character class [[...]] given by its members. *)
Fixpoint char_in (c : ascii) (cs : string) : bool :=
  match cs with
  | EmptyString => false
  | String d cs' => Ascii.eqb c d || char_in c cs'
  end.

(** [/^([01]\d|2[0-3]):([0-5]\d)$/.test(s)], the check of [notifyLocalTime]
    in [userEventSchema] and [updateUserEventPayload]. *)
Definition notifyLocalTime_pattern (s : string) : bool :=
  match s with
  | String h1 (String h2 (String c (String m1 (String m2 EmptyString)))) =>
      ((char_in h1 "01" && is_digit h2) || (Ascii.eqb h1 "2" && char_in h2 "0123"))
      && Ascii.eqb c ":"
      && (char_in m1 "012345" && is_digit m2)
  | _ => false
  end.

(** The character of a decimal digit [0 <= d <= 9]. *)
Definition digit_char (d : Z) : ascii := ascii_of_nat (48 + Z.to_nat d).

(** A clock time rendered as dayjs' ['HH:mm'] format renders it. *)
Definition format_HHmm (t : HHMM) : string :=
  String (digit_char (t_hour t / 10)) (String (digit_char (t_hour t mod 10))
    (String ":" (String (digit_char (t_minute t / 10))
      (String (digit_char (t_minute t mod 10)) EmptyString)))).

(* ------------------------------------------------------------------ *)
(** ** handlers/listUser and handlers/listEvents: the page size *)

(** The white space and line terminators [parseInt] skips that fit in one
    character of the model: TAB, LF, VT, FF, CR, SPACE and NBSP. *)
Definition js_space (c : ascii) : bool :=
  existsb (Nat.eqb (nat_of_ascii c)) [9; 10; 11; 12; 13; 32; 160]%nat.

Fixpoint trim_start (s : string) : string :=
  match s with
  | String c s' => if js_space c then trim_start s' else s
  | EmptyString => EmptyString
  end.

(** The value of the longest prefix of decimal digits of [s], read after
    the digits already accumulated in [acc]; [None] when no digit was read. *)
Fixpoint decimal_prefix (s : string) (acc : Z) (seen : bool) : option Z :=
  match s with
  | String c s' =>
      if is_digit c then decimal_prefix s' (10 * acc + (Z.of_nat (nat_of_ascii c) - 48)) true
      else if seen then Some acc else None
  | EmptyString => if seen then Some acc else None
  end.

(** [parseInt(s, 10)]; [None] is [NaN]. The exact integer is kept where JS
    rounds above 2^53: rounding keeps the order, so the comparisons with 0
    and 100 made of the result are unchanged. *)
Definition parseInt10 (s : string) : option Z :=
  match trim_start s with
  | String c s' =>
      if Ascii.eqb c "-" then option_map Z.opp (decimal_prefix s' 0 false)
      else if Ascii.eqb c "+" then decimal_prefix s' 0 false
      else decimal_prefix (String c s') 0 false
  | EmptyString => None
  end.

(** [a || b] on two query parameters ([undefined] and [''] are falsy). *)
Definition js_or_opt (a b : option string) : option string :=
  match a with
  | Some s => if String.eqb s "" then b else a
  | None => b
  end.

(** [pageSize] from [queryStringParameters.limit] and [.pageSize]:
    [limitParam = limit || pageSize], [parsedLimit = limitParam ?
    parseInt(limitParam, 10) : NaN], then [NaN] or [<= 0] gives 10 and
    anything else is capped at 100. *)
Definition page_size (limit pageSize : option string) : Z :=
  let limitParam := js_or_opt limit pageSize in
  let parsedLimit := match limitParam with
                     | Some s => if String.eqb s "" then None else parseInt10 s
                     | None => None
                     end in
  match parsedLimit with
  | None => 10
  | Some n => if n <=? 0 then 10 else Z.min n 100
  end.

(** The text of a decimal integer: an optional minus sign, then the
    digits [ds] (each between 0 and 9), of any length. *)
Fixpoint digits_string (ds : list Z) : string :=
  match ds with
  | [] => EmptyString
  | d :: ds' => String (digit_char d) (digits_string ds')
  end.

Definition decimal_text (neg : bool) (ds : list Z) : string :=
  if neg then String "-" (digits_string ds) else digits_string ds.

(** The value of the digits [ds] read after the value [acc]. *)
Fixpoint digits_value_from (acc : Z) (ds : list Z) : Z :=
  match ds with
  | [] => acc
  | d :: ds' => digits_value_from (10 * acc + d) ds'
  end.

Definition digits_value (ds : list Z) : Z := digits_value_from 0 ds.

(* ------------------------------------------------------------------ *)
(** ** utils/flattenUserToDynamoDBItems.ts *)

(** types.ts, [UserEvent] with the fields [flattenUserToDynamoDBItems]
    reads; [createdAt] and [updatedAt] may be missing at run time. *)
Record UserEvent := mkUserEvent {
  ue_type : string; ue_date : Date; ue_notifyLocalTime : HHMM; ue_notifyUtc : Z;
  ue_createdAt : option Z; ue_updatedAt : option Z; ue_lastSentYear : Z;
  ue_label : option string }.

(** The row of one event: [label] is written only when it is truthy. *)
Definition event_item (userPK : string) (userCreatedAt userUpdatedAt : Z)
  (event : UserEvent) : Item :=
  let eventSK := "EVENT#" +++ ue_type event in
  let eventCreatedAt := default userCreatedAt (ue_createdAt event) in
  let eventUpdatedAt := default userUpdatedAt (ue_updatedAt event) in
  let eventItem : Item :=
    list_to_map [("PK", AStr userPK); ("SK", AStr eventSK); ("GSI1PK", AStr "EVENT");
                 ("type", AStr (ue_type event)); ("date", ADate (ue_date event));
                 ("notifyLocalTime", AClock (ue_notifyLocalTime event));
                 ("notifyUtc", AInstant (ue_notifyUtc event));
                 ("createdAt", AInstant eventCreatedAt); ("updatedAt", AInstant eventUpdatedAt);
                 ("lastSentYear", ANum (ue_lastSentYear event));
                 ("sendingStatus", AStatus Pending)] in
  match ue_label event with
  | Some l => if String.eqb l "" then eventItem else <["label" := AStr l]> eventItem
  | None => eventItem
  end.

(** [flattenUserToDynamoDBItems({...user, createdAt, updatedAt, events})];
    [nowIso] is the [new Date()] read when [createdAt] is missing. The
    metadata row keeps the [User] fields under [data]. *)
Definition flattenUserToDynamoDBItems (nowIso : Z) (user : User)
  (createdAt updatedAt : option Z) (events : list UserEvent) : list Item :=
  let userPK := "USER#" +++ u_id user in
  let userCreatedAt := default nowIso createdAt in
  let userUpdatedAt := default userCreatedAt updatedAt in
  let metadataItem : Item :=
    list_to_map [("PK", AStr userPK); ("SK", AStr "METADATA"); ("data", AUser user)] in
  metadataItem :: map (event_item userPK userCreatedAt userUpdatedAt) events.

(** The key attributes of a row. *)
Definition item_key (it : Item) : option string * option string :=
  (attr_str it "PK", attr_str it "SK").

(* ------------------------------------------------------------------ *)
(** ** handlers/createUser and handlers/deleteUser: the BatchWrite loop *)

(** [for (let i = 0; i < items.length; i += chunkSize)
    { const chunk = items.slice(i, i + chunkSize); ... }]: the chunks sent,
    one BatchWriteCommand each, for at most [fuel] iterations. *)
Fixpoint batch_slices {A} (fuel : nat) (chunkSize i : nat) (items : list A) : list (list A) :=
  match fuel with
  | O => []
  | S fuel' =>
      if (i <? length items)%nat
      then take chunkSize (drop i items) :: batch_slices fuel' chunkSize (i + chunkSize) items
      else []
  end.

(** The loop as both handlers run it: [chunkSize = 25] (the BatchWrite
    limit), and one iteration per item is more than enough. *)
Definition batch_chunks {A} (items : list A) : list (list A) :=
  batch_slices (length items) 25 0 items.

(* ------------------------------------------------------------------ *)
(** ** handlers/healthCheck *)

(** The health check's own timeout, longer than the sender's. *)
Definition HEALTH_STUCK_TIMEOUT_MS : Z := 10 * 60 * 1000.

Definition health_stuck_reason : string :=
  "Stuck in sending state detected by health check - likely webhook timeout or Lambda crash".

Definition health_failed_sets (t : Z) : list (string * AttrValue) :=
  [("sendingStatus", AStatus Failed); ("markedFailedAt", AInstant t);
   ("failureReason", AStr health_stuck_reason); ("updatedAt", AInstant t)].

(** CHECK 1: [KeyConditionExpression: 'GSI1PK = :pk AND notifyUtc BETWEEN
    :oneDayAgo AND :now', FilterExpression: '(attribute_not_exists(lastSentYear)
    OR lastSentYear < :year) AND (attribute_not_exists(sendingStatus) OR
    sendingStatus <> :completed)'] (no [Limit]). *)
Definition missed_query (nowMs currentYear : Z) (s : Store) : list Item :=
  List.filter (fun it =>
    let n := default 0 (attr_instant it "notifyUtc") in
    (nowMs - 24 * 3600000 <=? n) && (n <=? nowMs)
    && match it !! "lastSentYear" with
       | None => true
       | Some (ANum y) => y <? currentYear
       | Some _ => false
       end
    && match it !! "sendingStatus" with
       | Some (AStatus Completed) => false
       | _ => true
       end) (index_items s).

(** CHECK 2: [KeyConditionExpression: 'GSI1PK = :pk', FilterExpression:
    'sendingStatus = :sending AND attribute_exists(sendingAttemptedAt)']. *)
Definition stuck_query (s : Store) : list Item :=
  List.filter (fun it =>
    match it !! "sendingStatus" with Some (AStatus Sending) => true | _ => false end
    && bool_decide (is_Some (it !! "sendingAttemptedAt"))) (index_items s).

Inductive StuckAction := Monitoring | MarkedFailedForRetry.

(** One turn of the [for (const event of stuckResult.Items)] loop. A
    [sendingAttemptedAt] that is not an ISO instant gives [NaN], and
    [NaN > STUCK_TIMEOUT_MS] is false. *)
Definition mark_stuck (nowMs : Z) (event : Item) : M StuckAction :=
  match attr_instant event "sendingAttemptedAt" with
  | Some attemptedAt =>
      let elapsedMs := nowMs - attemptedAt in
      if HEALTH_STUCK_TIMEOUT_MS <? elapsedMs then
        catch (dynamo_update (js_hole (attr_str event "PK")) (js_hole (attr_str event "SK"))
                 (health_failed_sets nowMs) None ;;
               ret MarkedFailedForRetry)
              (fun _ => ret Monitoring)
      else ret Monitoring
  | None => ret Monitoring
  end.

Fixpoint mark_all (nowMs : Z) (events : list Item) : M (list (Item * StuckAction)) :=
  match events with
  | [] => ret []
  | event :: rest =>
      action <- mark_stuck nowMs event ;;
      others <- mark_all nowMs rest ;;
      ret ((event, action) :: others)
  end.

Record HealthReport := mkHealthReport {
  hr_status : HealthStatus; hr_missed : list Item; hr_stuck : list (Item * StuckAction) }.

Definition health_status_code (status : HealthStatus) : Z :=
  match status with Healthy => 200 | Warning => 207 | Critical => 500 end.

(** [healthCheck()]: the status code and the report ([None]: the 500 of
    the outer [catch]). *)
Definition healthCheck : M (Z * option HealthReport) :=
  nowMs <- now ;;
  let currentYear := year_of_ms nowMs in
  catch (missedEvents <- dynamo_query ALL_EVENTS_INDEX (missed_query nowMs currentYear) ;;
         stuckItems <- dynamo_query ALL_EVENTS_INDEX stuck_query ;;
         stuckEvents <- mark_all nowMs stuckItems ;;
         let status := health_status missedEvents stuckEvents in
         ret (health_status_code status, Some (mkHealthReport status missedEvents stuckEvents)))
        (fun _ => ret (500, None)).

(** Every row stores its own key in [PK] and [SK], as every writer of the
    table does. *)
Definition well_keyed (s : Store) : Prop :=
  map_Forall (fun k it => attr_str it "PK" = Some k.1 /\ attr_str it "SK" = Some k.2) s.

(* ------------------------------------------------------------------ *)
(** ** Frame conditions of handler code *)

(** A computation [c] keeps to the effects allowed by [P]: it never touches
    the oracles, it leaves the table as it found it when no other worker
    writes, and every call it adds to the trace satisfies [P]. *)
Definition frame {A} (P : Effect -> bool) (c : M A) : Prop :=
  forall w,
    w_others (snd (c w)) = w_others w /\
    ((forall n s, w_others w n s = s) -> w_store (snd (c w)) = w_store w) /\
    exists l, w_trace (snd (c w)) = l ++ w_trace w /\ forallb P l = true.

(** What a scheduler sweep may do: query the index, read user metadata,
    resolve and send to a queue, and log. *)
Definition scheduler_effect (e : Effect) : bool :=
  match e with
  | EDynamoQuery _ | ESqsGetQueueUrl _ | ESqsSend _ _ | ELog _ => true
  | EDynamoGet _ sk => String.eqb sk "METADATA"
  | _ => false
  end.

(** The calls that move messages: receive, send and delete. *)
Definition redrive_effect (e : Effect) : bool :=
  match e with
  | ESqsReceive _ _ | ESqsSend _ _ | ESqsDelete _ _ => true
  | _ => false
  end.

(** Neither a message move nor a webhook call. *)
Definition quiet_effect (e : Effect) : bool :=
  match e with
  | EFetch _ _ _ => false
  | _ => negb (redrive_effect e)
  end.

(** A queue send whose message carries the key and [lastSentYear] (0 if
    absent) of one of the rows [L]; every other call is allowed. *)
Definition sent_from (L : list Item) (e : Effect) : bool :=
  match e with
  | ESqsSend _ m =>
      existsb (fun it =>
        String.eqb (gm_pk (sm_body m)) (js_hole (attr_str it "PK")) &&
        String.eqb (gm_sk (sm_body m)) (js_hole (attr_str it "SK")) &&
        Z.eqb (gm_lastSentYear (sm_body m)) (default 0 (attr_num it "lastSentYear"))) L
  | _ => true
  end.

(** The webhook POST. *)
Definition is_fetch (e : Effect) : bool :=
  match e with EFetch _ _ _ => true | _ => false end.

(** [c] appends calls to the trace, at most [n] of them webhook POSTs. *)
Definition fetch_bound {A} (n : nat) (c : M A) : Prop :=
  forall w, exists l, w_trace (snd (c w)) = l ++ w_trace w /\
    (length (List.filter is_fetch l) <= n)%nat.

(* ------------------------------------------------------------------ *)
(** ** Calendar checks over a window *)

(** [f] holds on the [n] consecutive days from [lo]. *)
Fixpoint check_range (f : Z -> bool) (lo : Z) (n : nat) : bool :=
  match n with
  | O => true
  | S n' => f lo && check_range f (lo + 1) n'
  end.

Definition civil_year (z : Z) : Z := let '(y, _, _) := civil_from_days z in y.

(** Day [z] lies in the year [civil_from_days] gives it. *)
Definition year_bounds_at (z : Z) : bool :=
  (days_from_civil (civil_year z) 1 1 <=? z)
  && (z <? days_from_civil (civil_year z + 1) 1 1).

(** January 1 is the earliest month start of year [j]. *)
Definition month_starts_ok (j : Z) : bool :=
  forallb (fun m => days_from_civil j 1 1 <=? days_from_civil j m 1)
    [1; 2; 3; 4; 5; 6; 7; 8; 9; 10; 11; 12].

(** [civil_from_days] inverts [days_from_civil] on every date of year [j]. *)
Definition civil_roundtrip_ok (j : Z) : bool :=
  forallb (fun m =>
    forallb (fun d => let '(y', m', d') := civil_from_days (days_from_civil j m d) in
                      (y' =? j) && (m' =? m) && (d' =? d))
      (map Z.of_nat (seq 1 (Z.to_nat (days_in_month j m)))))
    [1; 2; 3; 4; 5; 6; 7; 8; 9; 10; 11; 12].

(* ------------------------------------------------------------------ *)
(** ** Sample data: the project's test user and instants *)

(** 2026-01-14T10:00:00.000Z, the instant of the project's boundary test. *)
Definition jan14_2026_10h : Z := days_from_civil 2026 1 14 * ms_per_day + 10 * 3600000.

(** 2026-12-31T12:00:00.000Z. *)
Definition dec31_2026_noon : Z := days_from_civil 2026 12 31 * ms_per_day + 12 * 3600000.

(** 2026-06-15T09:00:00.000Z. *)
Definition t0 : Z := days_from_civil 2026 6 15 * ms_per_day + 9 * 3600000.

Definition utc_db : string -> Z -> option Z := fixed_zone "UTC" 0.

Definition ada : User := mkUser "u1" "Ada" "Lovelace" "UTC".

(** The birthday event row of [ada], as [flattenUserToDynamoDBItems] writes it. *)
Definition ada_event : Item :=
  list_to_map [("PK", AStr "USER#u1"); ("SK", AStr "EVENT#birthday");
               ("GSI1PK", AStr "EVENT"); ("type", AStr "birthday");
               ("date", ADate (mkDate 1990 6 15)); ("notifyLocalTime", AClock (mkHHMM 9 0));
               ("notifyUtc", AInstant t0); ("lastSentYear", ANum 0);
               ("sendingStatus", AStatus Pending)].

Definition ada_meta : Item :=
  list_to_map [("PK", AStr "USER#u1"); ("SK", AStr "METADATA"); ("data", AUser ada)].

Definition store0 : Store :=
  list_to_map [(("USER#u1", "EVENT#birthday"), ada_event); (("USER#u1", "METADATA"), ada_meta)].

(** A world at [t0] with no concurrent writers; [fails] and [http] are the
    oracles of the remote calls. *)
Definition world0 (fails : nat -> bool) (http : nat -> option Z) : World :=
  mkWorld store0 ∅ [] t0 0 fails http (fun _ s => s) 0 [].

(** The queue message the scheduler builds for [ada_event] in 2026. *)
Definition ada_msg : GreeterMessage :=
  mkGreeterMessage ada "USER#u1" "EVENT#birthday" (Some "birthday")
    (Some (mkDate 1990 6 15)) (Some (mkHHMM 9 0)) 0 2026.

(** [world0] with [ada]'s event row replaced by [it]. *)
Definition world_at (it : Item) (fails : nat -> bool) (http : nat -> option Z) : World :=
  mkWorld (<[("USER#u1", "EVENT#birthday") := it]> store0) ∅ [] t0 0 fails http
    (fun _ s => s) 0 [].

(** The row after a completed 2026 delivery. *)
Definition ada_event_done : Item :=
  <["sendingStatus" := AStatus Completed]> (<["lastSentYear" := ANum 2026]> ada_event).

(** The row left in [sending] by an attempt started at [a]. *)
Definition ada_event_sending (a : Z) : Item :=
  <["sendingAttemptedAt" := AInstant a]> (<["sendingStatus" := AStatus Sending]> ada_event).

Definition ada_greeter_event : GreeterEvent :=
  mkGreeterEvent "USER#u1" "EVENT#birthday" (Some "birthday") (Some (mkDate 1990 6 15))
    (Some (mkHHMM 9 0)) 0.

Example notify_today_later :
  computeNotifyUtc (fixed_zone "UTC" 0) (mkDate 1990 1 14) "UTC" (mkHHMM 12 0)
    (days_from_civil 2026 1 14 * ms_per_day + 10 * 3600000)
  = Some (days_from_civil 2026 1 14 * ms_per_day + 12 * 3600000).
Proof. vm_compute. reflexivity. Qed.

Example notify_today_passed :
  computeNotifyUtc (fixed_zone "UTC" 0) (mkDate 1990 1 14) "UTC" (mkHHMM 9 0)
    (days_from_civil 2026 1 14 * ms_per_day + 10 * 3600000)
  = Some (days_from_civil 2027 1 14 * ms_per_day + 9 * 3600000).
Proof. vm_compute. reflexivity. Qed.

Example civil_roundtrip_sample :
  civil_from_days (days_from_civil 2028 2 29) = (2028, 2, 29).
Proof. vm_compute. reflexivity. Qed.

(* ------------------------------------------------------------------ *)
(** ** Calendar lemmas *)

Lemma check_range_ok (f : Z -> bool) (n : nat) :
  forall lo, check_range f lo n = true ->
  forall z, lo <= z < lo + Z.of_nat n -> f z = true.
Proof.
  induction n as [|n IH]; intros lo H z Hz; simpl in *.
  - lia.
  - apply andb_true_iff in H as [H1 H2].
    destruct (Z.eq_dec z lo) as [->|Hne]; [exact H1|].
    apply (IH (lo + 1)); [exact H2|lia].
Qed.

Lemma days_from_civil_shift (y m d e : Z) :
  days_from_civil (y + e * 400) m d = days_from_civil y m d + e * 146097.
Proof.
  unfold days_from_civil. cbv zeta.
  destruct (m <=? 2).
  - replace (y + e * 400 - 1) with (y - 1 + e * 400) by lia.
    rewrite Z.div_add by lia.
    replace (y - 1 + e * 400 - ((y - 1) / 400 + e) * 400)
      with (y - 1 - (y - 1) / 400 * 400) by lia.
    lia.
  - rewrite Z.div_add by lia.
    replace (y + e * 400 - (y / 400 + e) * 400) with (y - y / 400 * 400) by lia.
    lia.
Qed.

Lemma days_from_civil_day (y m d : Z) :
  days_from_civil y m d = days_from_civil y m 1 + (d - 1).
Proof. unfold days_from_civil. cbv zeta. lia. Qed.

Lemma civil_from_days_shift (z e : Z) :
  civil_from_days (z + e * 146097) =
  let '(y, m, d) := civil_from_days z in (y + e * 400, m, d).
Proof.
  unfold civil_from_days. cbv zeta.
  replace (z + e * 146097 + 719468) with (z + 719468 + e * 146097) by lia.
  rewrite Z.div_add by lia.
  replace (z + 719468 + e * 146097 - ((z + 719468) / 146097 + e) * 146097)
    with (z + 719468 - (z + 719468) / 146097 * 146097) by lia.
  set (doe := z + 719468 - (z + 719468) / 146097 * 146097).
  set (yoe := (doe - doe / 1460 + doe / 36524 - doe / 146096) / 365).
  set (mp := (5 * (doe - (365 * yoe + yoe / 4 - yoe / 100)) + 2) / 153).
  destruct (mp <? 10); simpl.
  - destruct (mp + 3 <=? 2); f_equal; f_equal; lia.
  - destruct (mp - 9 <=? 2); f_equal; f_equal; lia.
Qed.

Lemma year_bounds_window :
  check_range year_bounds_at (-719468) 146097 = true.
Proof. vm_compute. reflexivity. Qed.

Lemma civil_year_shift (z e : Z) :
  civil_year (z + e * 146097) = civil_year z + e * 400.
Proof.
  unfold civil_year. rewrite civil_from_days_shift.
  destruct (civil_from_days z) as [[y m] d]. reflexivity.
Qed.

Lemma civil_year_bounds (z : Z) :
  days_from_civil (civil_year z) 1 1 <= z < days_from_civil (civil_year z + 1) 1 1.
Proof.
  set (e := (z + 719468) / 146097).
  set (z0 := z - e * 146097).
  assert (Hn : Z.of_nat 146097 = 146097) by (vm_compute; reflexivity).
  assert (Hz0 : -719468 <= z0 < -719468 + Z.of_nat 146097).
  { rewrite Hn. unfold z0, e. pose proof (Z.mod_pos_bound (z + 719468) 146097 ltac:(lia)).
    rewrite Z.mod_eq in H by lia. lia. }
  pose proof (check_range_ok _ _ _ year_bounds_window z0 Hz0) as H.
  unfold year_bounds_at in H. apply andb_true_iff in H as [H1 H2].
  apply Z.leb_le in H1. apply Z.ltb_lt in H2.
  replace z with (z0 + e * 146097) by (unfold z0; lia).
  rewrite civil_year_shift.
  replace (civil_year z0 + e * 400 + 1) with ((civil_year z0 + 1) + e * 400) by lia.
  rewrite !days_from_civil_shift. lia.
Qed.

Lemma month_starts_window : check_range month_starts_ok 0 400 = true.
Proof. vm_compute. reflexivity. Qed.

Lemma days_from_civil_year_start (y m d : Z) :
  1 <= m <= 12 -> 1 <= d -> days_from_civil y 1 1 <= days_from_civil y m d.
Proof.
  intros Hm Hd.
  set (e := y / 400). set (j := y - e * 400).
  assert (Hj : 0 <= j < 0 + Z.of_nat 400).
  { unfold j, e. pose proof (Z.mod_pos_bound y 400 ltac:(lia)).
    rewrite Z.mod_eq in H by lia. simpl. lia. }
  pose proof (check_range_ok _ _ _ month_starts_window j Hj) as H.
  unfold month_starts_ok in H.
  rewrite forallb_forall in H.
  assert (Hin : In m [1; 2; 3; 4; 5; 6; 7; 8; 9; 10; 11; 12]).
  { simpl. lia. }
  specialize (H m Hin). apply Z.leb_le in H.
  replace y with (j + e * 400) by (unfold j; lia).
  rewrite !days_from_civil_shift.
  rewrite (days_from_civil_day j m d). lia.
Qed.

Lemma year_of_ms_bounds (r : Z) :
  start_of_year_ms (year_of_ms r) <= r < start_of_year_ms (year_of_ms r + 1).
Proof.
  unfold start_of_year_ms, year_of_ms.
  pose proof (civil_year_bounds (r / ms_per_day)) as H.
  unfold civil_year in H.
  destruct (civil_from_days (r / ms_per_day)) as [[y m] d].
  pose proof (Z.mod_pos_bound r ms_per_day ltac:(unfold ms_per_day; lia)).
  rewrite Z.mod_eq in H0 by (unfold ms_per_day; lia).
  unfold ms_per_day in *. nia.
Qed.

Lemma days_in_month_pos (y m : Z) : 28 <= days_in_month y m.
Proof.
  unfold days_in_month.
  destruct (m =? 2); [destruct (is_leap y); lia|].
  destruct ((m =? 4) || (m =? 6) || (m =? 9) || (m =? 11)); lia.
Qed.

Lemma ms_to_year_end_pos (r : Z) : 0 < ms_to_year_end r.
Proof. unfold ms_to_year_end. pose proof (year_of_ms_bounds r). lia. Qed.

(* ------------------------------------------------------------------ *)
(** ** C1: computeNotifyUtc *)

(** C1 (corrected). For every zone, computeNotifyUtc compares the
    candidate of the reference's UTC year with the reference strictly:
    a candidate at or after the reference (one equal to it included) is
    returned unchanged, a candidate strictly before it is replaced by the
    next year's candidate, and no candidate gives no result. The next
    year's candidate is strictly after the reference as long as the zone's
    UTC offset is smaller than the time left until the end of the
    reference's UTC year (always true for zones at or west of UTC); under
    that condition the result is at or after the reference. *)
Theorem computeNotifyUtc_at_or_after
  (tzdb : string -> Z -> option Z) (b : Date) (tz : string) (t : HHMM) (r : Z) :
  (forall c, notify_for_year tzdb b tz t (year_of_ms r) = Some c ->
     (r <= c -> computeNotifyUtc tzdb b tz t r = Some c) /\
     (c < r -> computeNotifyUtc tzdb b tz t r =
               notify_for_year tzdb b tz t (year_of_ms r + 1))) /\
  (notify_for_year tzdb b tz t (year_of_ms r) = None ->
   computeNotifyUtc tzdb b tz t r = None) /\
  (1 <= d_month b <= 12 -> 1 <= d_day b ->
   0 <= t_hour t -> 0 <= t_minute t ->
   (forall l off, tzdb tz l = Some off -> off * ms_per_minute < ms_to_year_end r) ->
   (forall res, notify_for_year tzdb b tz t (year_of_ms r + 1) = Some res -> r < res) /\
   (forall res, computeNotifyUtc tzdb b tz t r = Some res -> r <= res)).
Proof.
  split; [|split].
  - intros c Hc. unfold computeNotifyUtc. rewrite Hc. split.
    + intros Hle. replace (c <? r) with false by (symmetry; apply Z.ltb_ge; lia).
      reflexivity.
    + intros Hlt. replace (c <? r) with true by (symmetry; apply Z.ltb_lt; lia).
      reflexivity.
  - intros Hc. unfold computeNotifyUtc. rewrite Hc. reflexivity.
  - intros Hm Hd Hh Hmin Hoff.
    assert (Hnext : forall res', notify_for_year tzdb b tz t (year_of_ms r + 1) = Some res' -> r < res').
    { intros res' Hn. unfold notify_for_year, dayjs_tz_utc in Hn.
      destruct (tzdb tz _) as [off|] eqn:Ho; [|discriminate]. injection Hn as <-.
      specialize (Hoff _ _ Ho). unfold local_ms, dayjs_set_year in *; simpl.
      pose proof (days_in_month_pos (year_of_ms r + 1) (d_month b)).
      pose proof (days_from_civil_year_start (year_of_ms r + 1) (d_month b)
                    (Z.min (d_day b) (days_in_month (year_of_ms r + 1) (d_month b))) Hm ltac:(lia)).
      unfold ms_to_year_end, start_of_year_ms, ms_per_day, ms_per_minute in *. nia. }
    split; [exact Hnext|].
    intros res Hres. unfold computeNotifyUtc in Hres.
    destruct (notify_for_year tzdb b tz t (year_of_ms r)) as [c|] eqn:Hc; [|discriminate].
    destruct (c <? r) eqn:Hlt.
    + pose proof (Hnext _ Hres). lia.
    + apply Z.ltb_ge in Hlt. injection Hres as <-. lia.
Qed.

(** C1 counterexample. With the reference equal to the candidate
    (1990-01-14 at 10:00 in UTC, reference 2026-01-14T10:00Z) the reference
    itself is returned, not a later instant; and in a UTC+14 zone a Jan 1
    00:00 event computed at 2026-12-31T12:00Z lands at 2026-12-31T10:00Z,
    before the reference. *)
Lemma computeNotifyUtc_not_strictly_later :
  computeNotifyUtc (fixed_zone "UTC" 0) (mkDate 1990 1 14) "UTC" (mkHHMM 10 0)
    jan14_2026_10h = Some jan14_2026_10h /\
  computeNotifyUtc (fixed_zone "Pacific/Kiritimati" 840) (mkDate 1990 1 1)
    "Pacific/Kiritimati" (mkHHMM 0 0) dec31_2026_noon
  = Some (dec31_2026_noon - 2 * 3600000).
Proof. split; vm_compute; reflexivity. Qed.

Lemma computeNotifyUtc_at_or_after_witness :
  exists res,
    computeNotifyUtc (fixed_zone "America/New_York" (-300)) (mkDate 1988 1 1)
      "America/New_York" (mkHHMM 9 0) jan14_2026_10h = Some res /\
    jan14_2026_10h < res.
Proof.
  assert (Hoff : forall l off, fixed_zone "America/New_York" (-300) "America/New_York" l
                   = Some off -> off * ms_per_minute < ms_to_year_end jan14_2026_10h).
  { intros l off Hoff. unfold fixed_zone in Hoff. simpl in Hoff.
    injection Hoff as <-. pose proof (ms_to_year_end_pos jan14_2026_10h).
    unfold ms_per_minute. lia. }
  destruct (computeNotifyUtc_at_or_after
    (fixed_zone "America/New_York" (-300)) (mkDate 1988 1 1)
    "America/New_York" (mkHHMM 9 0) jan14_2026_10h) as [Hbranch [_ Hcond]].
  destruct (Hcond ltac:(simpl; lia) ltac:(simpl; lia) ltac:(simpl; lia) ltac:(simpl; lia)
    Hoff) as [Hnext _].
  destruct (Hbranch (days_from_civil 2026 1 1 * ms_per_day + 14 * 3600000)
    ltac:(vm_compute; reflexivity)) as [_ Hbefore].
  exists (days_from_civil 2027 1 1 * ms_per_day + 14 * 3600000).
  assert (Hn : notify_for_year (fixed_zone "America/New_York" (-300)) (mkDate 1988 1 1)
    "America/New_York" (mkHHMM 9 0) (year_of_ms jan14_2026_10h + 1)
    = Some (days_from_civil 2027 1 1 * ms_per_day + 14 * 3600000))
    by (vm_compute; reflexivity).
  split.
  - rewrite (Hbefore ltac:(vm_compute; reflexivity)). exact Hn.
  - exact (Hnext _ Hn).
Defined.


(* ------------------------------------------------------------------ *)
(** ** Sender lemmas *)

Lemma sender_record_unfold tzdb hook (m : GreeterMessage) (w : World) :
  sender_record tzdb hook m w =
  match sender_prestep m w with
  | (Ok None, w') => (Ok tt, w')
  | (Ok (Some c), w') => catch (claim_and_deliver tzdb hook m c) sender_catch w'
  | (Throw e, w') => sender_catch e w'
  end.
Proof.
  unfold sender_record, catch, bind at 1.
  destruct (sender_prestep m w) as [[[c|]|e] w']; try reflexivity.
Qed.

(** The pre-step's read: the item as the GetCommand sees it. *)
Lemma sender_prestep_read (m : GreeterMessage) (w : World) :
  w_fails w (w_calls w) = false ->
  sender_prestep m w =
  (match seen w !! (gm_pk m, gm_sk m) with
   | None => log LogEventNotFound ;; ret None
   | Some currentEvent =>
      let currentLastSentYear := default 0 (attr_num currentEvent "lastSentYear") in
      let currentSendingStatus := attr_status currentEvent "sendingStatus" in
      let sendingAttemptedAt := attr_instant currentEvent "sendingAttemptedAt" in
      if (gm_yearNow m <=? currentLastSentYear)
         && (match currentSendingStatus with Some Completed => true | _ => false end)
      then log LogDuplicateSkipped ;; ret None
      else
        match currentSendingStatus, sendingAttemptedAt with
        | Some Sending, Some attemptedAt =>
            t <- now ;;
            let elapsedMs := t - attemptedAt in
            if elapsedMs <? STUCK_TIMEOUT_MS
            then log LogInFlightSkipped ;; ret None
            else
              catch (t' <- now ;; dynamo_update (gm_pk m) (gm_sk m) (stuck_sets t') None)
                    (fun _ => ret tt) ;;
              log LogStuckMarkedForRetry ;;
              ret (Some currentLastSentYear)
        | _, _ => ret (Some currentLastSentYear)
        end
   end) (issue (EDynamoGet (gm_pk m) (gm_sk m)) (set_store (seen w) w)).
Proof.
  intros Hf. unfold sender_prestep, bind at 1, dynamo_get, aws_call.
  rewrite Hf. reflexivity.
Qed.

Ltac run_monad :=
  unfold bind, catch, ret, throw, now, log, dynamo_update, dynamo_get, aws_call;
  cbn [fst snd w_store w_calls w_fails w_clock w_trace w_others w_http
       issue add_log set_store].

(** C3: with the event read, the sender drops the message as a duplicate (it
    logs the skip right after the read and does nothing else) exactly when
    [yearNow <= (lastSentYear ?? 0)] and [sendingStatus = 'completed']; in
    that case the record is finished with no store write and no webhook call:
    the trace gained only the read and the log line. *)
Theorem sender_duplicate_guard tzdb hook (m : GreeterMessage) (w : World) (ev : Item) :
  w_fails w (w_calls w) = false ->
  seen w !! (gm_pk m, gm_sk m) = Some ev ->
  let w1 := issue (EDynamoGet (gm_pk m) (gm_sk m)) (set_store (seen w) w) in
  (sender_prestep m w = (Ok None, add_log LogDuplicateSkipped w1) <->
   gm_yearNow m <= default 0 (attr_num ev "lastSentYear") /\
   attr_status ev "sendingStatus" = Some Completed) /\
  (gm_yearNow m <= default 0 (attr_num ev "lastSentYear") /\
   attr_status ev "sendingStatus" = Some Completed ->
   sender_record tzdb hook m w = (Ok tt, add_log LogDuplicateSkipped w1) /\
   w_trace (add_log LogDuplicateSkipped w1) =
     ELog LogDuplicateSkipped :: EDynamoGet (gm_pk m) (gm_sk m) :: w_trace w /\
   w_store (add_log LogDuplicateSkipped w1) = seen w).
Proof.
  intros Hf Hev w1.
  assert (Hpre : sender_prestep m w =
    (if (gm_yearNow m <=? default 0 (attr_num ev "lastSentYear"))
        && (match attr_status ev "sendingStatus" with Some Completed => true | _ => false end)
     then (Ok None, add_log LogDuplicateSkipped w1)
     else (match attr_status ev "sendingStatus", attr_instant ev "sendingAttemptedAt" with
           | Some Sending, Some attemptedAt =>
               t <- now ;;
               if t - attemptedAt <? STUCK_TIMEOUT_MS
               then log LogInFlightSkipped ;; ret None
               else
                 catch (t' <- now ;; dynamo_update (gm_pk m) (gm_sk m) (stuck_sets t') None)
                       (fun _ => ret tt) ;;
                 log LogStuckMarkedForRetry ;;
                 ret (Some (default 0 (attr_num ev "lastSentYear")))
           | _, _ => ret (Some (default 0 (attr_num ev "lastSentYear")))
           end) w1)).
  { rewrite sender_prestep_read by exact Hf. rewrite Hev. cbv zeta.
    destruct (_ && _); reflexivity. }
  assert (Hcond : (gm_yearNow m <=? default 0 (attr_num ev "lastSentYear"))
        && (match attr_status ev "sendingStatus" with Some Completed => true | _ => false end)
        = true <->
        gm_yearNow m <= default 0 (attr_num ev "lastSentYear") /\
        attr_status ev "sendingStatus" = Some Completed).
  { rewrite andb_true_iff, Z.leb_le.
    destruct (attr_status ev "sendingStatus") as [[]|]; intuition congruence. }
  split.
  - rewrite Hpre, <- Hcond. split; [|intros ->; reflexivity].
    destruct (_ && _) eqn:Hb; [reflexivity|].
    destruct (attr_status ev "sendingStatus") as [[]|];
      try (unfold ret; intros H; inversion H; fail).
    destruct (attr_instant ev "sendingAttemptedAt") as [a|];
      [|unfold ret; intros H; inversion H].
    run_monad. destruct (_ <? _).
    + intros H. inversion H.
    + destruct (w_fails w1 (w_calls w1)); intros H; inversion H.
  - intros Hc. apply Hcond in Hc.
    rewrite sender_record_unfold, Hpre, Hc. repeat split.
Qed.

Lemma sender_prestep_sending (m : GreeterMessage) (w : World) (ev : Item) (a : Z) :
  w_fails w (w_calls w) = false ->
  seen w !! (gm_pk m, gm_sk m) = Some ev ->
  attr_status ev "sendingStatus" = Some Sending ->
  attr_instant ev "sendingAttemptedAt" = Some a ->
  sender_prestep m w =
  (t <- now ;;
   if t - a <? STUCK_TIMEOUT_MS
   then log LogInFlightSkipped ;; ret None
   else
     catch (t' <- now ;; dynamo_update (gm_pk m) (gm_sk m) (stuck_sets t') None)
           (fun _ => ret tt) ;;
     log LogStuckMarkedForRetry ;;
     ret (Some (default 0 (attr_num ev "lastSentYear"))))
    (issue (EDynamoGet (gm_pk m) (gm_sk m)) (set_store (seen w) w)).
Proof.
  intros Hf Hev Hst Hat.
  rewrite sender_prestep_read by exact Hf. rewrite Hev. cbv zeta.
  rewrite Hst, Hat, andb_false_r. reflexivity.
Qed.

(** C5: an event found in [sending] whose attempt is younger than five minutes
    is skipped with no write and no webhook call; once five minutes or more
    have elapsed, a best-effort write marks it [failed] with the stuck-state
    reason and, whether or not that write succeeds, the message proceeds to
    the claim. *)
Theorem sender_stuck_recovery tzdb hook (m : GreeterMessage) (w : World) (ev : Item) (a : Z) :
  w_fails w (w_calls w) = false ->
  seen w !! (gm_pk m, gm_sk m) = Some ev ->
  attr_status ev "sendingStatus" = Some Sending ->
  attr_instant ev "sendingAttemptedAt" = Some a ->
  let w1 := issue (EDynamoGet (gm_pk m) (gm_sk m)) (set_store (seen w) w) in
  (w_clock w - a < STUCK_TIMEOUT_MS ->
   sender_record tzdb hook m w = (Ok tt, add_log LogInFlightSkipped w1) /\
   w_trace (add_log LogInFlightSkipped w1) =
     ELog LogInFlightSkipped :: EDynamoGet (gm_pk m) (gm_sk m) :: w_trace w /\
   w_store (add_log LogInFlightSkipped w1) = seen w) /\
  (STUCK_TIMEOUT_MS <= w_clock w - a ->
   exists w2,
     sender_prestep m w =
       (Ok (Some (default 0 (attr_num ev "lastSentYear"))), add_log LogStuckMarkedForRetry w2) /\
     w_trace w2 = EDynamoUpdate (gm_pk m) (gm_sk m) (stuck_sets (w_clock w)) false :: w_trace w1 /\
     sender_record tzdb hook m w =
       catch (claim_and_deliver tzdb hook m (default 0 (attr_num ev "lastSentYear")))
             sender_catch (add_log LogStuckMarkedForRetry w2) /\
     (w_fails w (S (w_calls w)) = false ->
      exists it, w_store w2 !! (gm_pk m, gm_sk m) = Some it /\
        attr_status it "sendingStatus" = Some Failed /\
        attr_instant it "markedFailedAt" = Some (w_clock w) /\
        it !! "failureReason" = Some (AStr stuck_reason))).
Proof.
  intros Hf Hev Hst Hat w1.
  pose proof (sender_prestep_sending m w ev a Hf Hev Hst Hat) as Hpre.
  fold w1 in Hpre. split.
  - intros Hlt. rewrite sender_record_unfold, Hpre.
    run_monad. apply Z.ltb_lt in Hlt. subst w1. cbn [w_clock issue set_store].
    rewrite Hlt. repeat split.
  - intros Hge. assert (Hlt : w_clock w - a <? STUCK_TIMEOUT_MS = false)
      by (apply Z.ltb_ge; lia).
    subst w1. revert Hpre. run_monad. intros Hpre.
    cbn [w_fails w_calls w_clock w_store issue set_store] in Hpre.
    rewrite Hlt in Hpre. cbn [w_fails w_calls w_clock w_store issue set_store] in Hpre.
    destruct (w_fails w (S (w_calls w))) eqn:Hf2.
    + eexists. split; [exact Hpre|]. split; [reflexivity|].
      split; [rewrite sender_record_unfold, Hpre; reflexivity|].
      intros; congruence.
    + eexists. split; [exact Hpre|]. split; [reflexivity|].
      split; [rewrite sender_record_unfold, Hpre; reflexivity|].
      intros _. eexists. cbn [w_store set_store]. split; [apply lookup_insert_eq|].
      unfold attr_status, attr_instant, apply_sets, stuck_sets. simpl.
      simplify_map_eq. auto.
Qed.

Lemma claim_condition_spec (c : Z) (cur : option Item) :
  claim_condition c cur = true <->
  exists it, cur = Some it /\ attr_num it "lastSentYear" = Some c /\
    (it !! "sendingStatus" = None \/
     exists st, it !! "sendingStatus" = Some (AStatus st) /\ st <> Sending /\ st <> Completed).
Proof.
  unfold claim_condition. destruct cur as [it|].
  - rewrite andb_true_iff. split.
    + intros [H1 H2]. exists it. split; [reflexivity|].
      destruct (attr_num it "lastSentYear") as [n|]; [|discriminate].
      apply Z.eqb_eq in H1. subst n. split; [reflexivity|].
      destruct (it !! "sendingStatus") as [[| | | | | | st]|]; try discriminate; auto.
      right. exists st. destruct st; try discriminate; auto.
    + intros (it' & Heq & Hn & Hs). injection Heq as <-. rewrite Hn, Z.eqb_refl.
      split; [reflexivity|].
      destruct Hs as [-> | (st & -> & H1 & H2)]; [reflexivity|].
      destruct st; congruence.
  - split; [discriminate|]. intros (it & H & _). discriminate.
Qed.

(** C2: the Phase-1 claim is one conditional update. It succeeds exactly when
    the stored [lastSentYear] is the pre-step's [currentLastSentYear] and
    [sendingStatus] is absent or not in {sending, completed}; on success the
    one write sets [sendingStatus = 'sending'], [sendingAttemptedAt = now],
    [lastSentYear = yearNow] and [notifyUtc] to the next-year instant, and the
    sender goes on to the webhook; on a lost race the message is dropped and
    the trace gains only the update attempt and the log line (no webhook call). *)
Theorem sender_claim_for_year tzdb hook (m : GreeterMessage) (c : Z) (w : World) (nu : Z) :
  next_notify_utc tzdb m (w_clock w) = Some nu ->
  w_fails w (w_calls w) = false ->
  let cur := seen w !! (gm_pk m, gm_sk m) in
  let sets := claim_sets (w_clock w) (gm_yearNow m) nu in
  let w1 := issue (EDynamoUpdate (gm_pk m) (gm_sk m) sets true) (set_store (seen w) w) in
  (claim_condition c cur = true <->
   exists it, cur = Some it /\ attr_num it "lastSentYear" = Some c /\
     (it !! "sendingStatus" = None \/
      exists st, it !! "sendingStatus" = Some (AStatus st) /\ st <> Sending /\ st <> Completed)) /\
  (claim_condition c cur = true ->
   let it' := apply_sets (default (new_item (gm_pk m) (gm_sk m)) cur) sets in
   let w2 := set_store (<[(gm_pk m, gm_sk m) := it']> (seen w)) w1 in
   sender_claim tzdb m c w = (Ok true, w2) /\
   claim_and_deliver tzdb hook m c w = sender_deliver hook m w2 /\
   attr_status it' "sendingStatus" = Some Sending /\
   attr_instant it' "sendingAttemptedAt" = Some (w_clock w) /\
   attr_num it' "lastSentYear" = Some (gm_yearNow m) /\
   attr_instant it' "notifyUtc" = Some nu) /\
  (claim_condition c cur = false ->
   sender_claim tzdb m c w = (Ok false, add_log LogClaimLost w1) /\
   claim_and_deliver tzdb hook m c w = (Ok tt, add_log LogClaimLost w1) /\
   w_trace (add_log LogClaimLost w1) =
     ELog LogClaimLost :: EDynamoUpdate (gm_pk m) (gm_sk m) sets true :: w_trace w).
Proof.
  intros Hnu Hf cur sets w1.
  assert (Hclaim : sender_claim tzdb m c w =
    if claim_condition c cur
    then (Ok true, set_store (<[(gm_pk m, gm_sk m) :=
            apply_sets (default (new_item (gm_pk m) (gm_sk m)) cur) sets]> (seen w)) w1)
    else (Ok false, add_log LogClaimLost w1)).
  { unfold sender_claim. run_monad. rewrite Hnu. run_monad. rewrite Hf.
    cbn [w_store w_calls issue set_store]. subst cur sets w1.
    destruct (claim_condition c _); reflexivity. }
  split; [apply claim_condition_spec|]. split.
  - intros Hc it' w2. rewrite Hc in Hclaim. split; [exact Hclaim|]. split.
    + unfold claim_and_deliver, bind at 1. rewrite Hclaim. reflexivity.
    + unfold it', attr_status, attr_instant, attr_num, apply_sets, sets, claim_sets.
      simpl. simplify_map_eq. auto.
  - intros Hc. rewrite Hc in Hclaim. split; [exact Hclaim|]. split.
    + unfold claim_and_deliver, bind at 1. rewrite Hclaim. reflexivity.
    + reflexivity.
Qed.

(** C4 (amended): after the webhook POST, a status other than 200 leads to a
    best-effort write of only [sendingStatus = 'failed'] and [updatedAt] (no
    failure reason, no response status), then to the error
    ["Failed to send message to Hookbin for user <name>"], which the handler
    rethrows; a 200 leads to the completion write, and the phase returns
    normally whether or not that write succeeds. *)
Theorem sender_webhook_outcome hook (m : GreeterMessage) (w : World) (status : Z) :
  w_http w (w_calls w) = Some status ->
  let w1 := issue (EFetch hook (webhook_headers m) (greeting m)) w in
  (status <> 200 ->
   let err := Error ("Failed to send message to Hookbin for user " +++ fullName m) in
   exists w2,
     sender_deliver hook m w = (Throw err, w2) /\
     sender_catch err w2 = (Throw err, w2) /\
     w_trace w2 = EDynamoUpdate (gm_pk m) (gm_sk m) (failed_sets (w_clock w)) false
                  :: w_trace w1 /\
     failed_sets (w_clock w) =
       [("sendingStatus", AStatus Failed); ("updatedAt", AInstant (w_clock w))] /\
     (w_fails w (S (w_calls w)) = false ->
      w_store w2 = <[(gm_pk m, gm_sk m) :=
        apply_sets (default (new_item (gm_pk m) (gm_sk m)) (seen w1 !! (gm_pk m, gm_sk m)))
          (failed_sets (w_clock w))]> (seen w1))) /\
  (status = 200 ->
   exists w2,
     sender_deliver hook m w = (Ok tt, w2) /\
     w_trace w2 = EDynamoUpdate (gm_pk m) (gm_sk m) (completed_sets (w_clock w) 200) false
                  :: w_trace w1 /\
     (w_fails w (S (w_calls w)) = false ->
      exists it, w_store w2 !! (gm_pk m, gm_sk m) = Some it /\
        attr_status it "sendingStatus" = Some Completed /\
        attr_num it "webhookResponseCode" = Some 200)).
Proof.
  intros Hh w1.
  assert (Hd : sender_deliver hook m w =
    (if negb (status =? 200) then
       (catch (t <- now ;; dynamo_update (gm_pk m) (gm_sk m) (failed_sets t) None)
              (fun _ => ret tt) ;;
        throw (Error ("Failed to send message to Hookbin for user " +++ fullName m))) w1
     else
       catch (t <- now ;; dynamo_update (gm_pk m) (gm_sk m) (completed_sets t status) None)
             (fun _ => ret tt) w1)).
  { unfold sender_deliver, bind at 1, fetch. rewrite Hh. destruct (negb _); reflexivity. }
  split.
  - intros Hne err. rewrite Hd.
    replace (negb (status =? 200)) with true
      by (symmetry; apply negb_true_iff, Z.eqb_neq; exact Hne).
    run_monad. subst w1. cbn [w_fails w_calls w_clock w_store w_trace issue set_store].
    destruct (w_fails w (S (w_calls w))); eexists; (split; [reflexivity|]);
      (split; [reflexivity|]); (split; [reflexivity|]); (split; [reflexivity|]);
      [discriminate|intros _; reflexivity].
  - intros ->. rewrite Hd. cbn [Z.eqb negb].
    run_monad. subst w1. cbn [w_fails w_calls w_clock w_store w_trace issue set_store].
    destruct (w_fails w (S (w_calls w))); eexists; (split; [reflexivity|]);
      (split; [reflexivity|]); [discriminate|].
    intros _. eexists. split; [apply lookup_insert_eq|].
    unfold attr_status, attr_num, apply_sets, completed_sets. simpl.
    simplify_map_eq. auto.
Qed.

(** C4 counterexample: [ada]'s webhook answers 503; the sender raises, and
    the event row it leaves records [sendingStatus = 'failed'] but neither a
    failure reason nor the response status. *)
Lemma sender_webhook_503_no_reason :
  let r := sender_deliver "https://hookbin.example" ada_msg
             (world0 (fun _ => false) (fun _ => Some 503)) in
  fst r = Throw (Error "Failed to send message to Hookbin for user Ada Lovelace") /\
  (w_store (snd r) !! ("USER#u1", "EVENT#birthday")) ≫= (fun it => attr_status it "sendingStatus")
    = Some Failed /\
  (w_store (snd r) !! ("USER#u1", "EVENT#birthday")) ≫= (fun it => it !! "failureReason") = None /\
  (w_store (snd r) !! ("USER#u1", "EVENT#birthday")) ≫= (fun it => it !! "webhookResponseCode")
    = None.
Proof. vm_compute. repeat split. Qed.

(* ------------------------------------------------------------------ *)
(** ** Sender claims on [ada]'s row *)

Lemma sender_duplicate_guard_witness :
  let W := world_at ada_event_done (fun _ => false) (fun _ => Some 200) in
  w_fails W (w_calls W) = false /\
  seen W !! ("USER#u1", "EVENT#birthday") = Some ada_event_done /\
  sender_record utc_db "https://hookbin.example" ada_msg W =
    (Ok tt, add_log LogDuplicateSkipped
              (issue (EDynamoGet "USER#u1" "EVENT#birthday") (set_store (seen W) W))).
Proof.
  intros W.
  assert (Hf : w_fails W (w_calls W) = false) by reflexivity.
  assert (Hs : seen W !! ("USER#u1", "EVENT#birthday") = Some ada_event_done)
    by (vm_compute; reflexivity).
  split; [exact Hf|]. split; [exact Hs|].
  destruct (sender_duplicate_guard utc_db "https://hookbin.example" ada_msg W
              ada_event_done Hf Hs) as [_ Hdup].
  apply Hdup. split; vm_compute; [discriminate|reflexivity].
Defined.

Lemma sender_stuck_recovery_witness :
  let a := t0 - 10 * ms_per_minute in
  let W := world_at (ada_event_sending a) (fun _ => false) (fun _ => Some 200) in
  exists w2,
    sender_prestep ada_msg W = (Ok (Some 0), add_log LogStuckMarkedForRetry w2) /\
    exists it, w_store w2 !! ("USER#u1", "EVENT#birthday") = Some it /\
      it !! "failureReason" = Some (AStr stuck_reason).
Proof.
  intros a W.
  assert (Hf : w_fails W (w_calls W) = false) by reflexivity.
  assert (Hs : seen W !! ("USER#u1", "EVENT#birthday") = Some (ada_event_sending a))
    by (vm_compute; reflexivity).
  assert (Hst : attr_status (ada_event_sending a) "sendingStatus" = Some Sending)
    by (vm_compute; reflexivity).
  assert (Hat : attr_instant (ada_event_sending a) "sendingAttemptedAt" = Some a)
    by (vm_compute; reflexivity).
  destruct (sender_stuck_recovery utc_db "https://hookbin.example" ada_msg W
              (ada_event_sending a) a Hf Hs Hst Hat) as [_ Hstale].
  assert (Hge : STUCK_TIMEOUT_MS <= w_clock W - a) by (vm_compute; discriminate).
  destruct (Hstale Hge) as (w2 & Hpre & _ & _ & Hw).
  exists w2. split; [exact Hpre|].
  destruct (Hw eq_refl) as (it & Hit & _ & _ & Hr). exists it. split; assumption.
Defined.

Lemma sender_claim_for_year_witness :
  let W := world0 (fun _ => false) (fun _ => Some 200) in
  let nu := days_from_civil 2027 6 15 * ms_per_day + 9 * 3600000 in
  next_notify_utc utc_db ada_msg (w_clock W) = Some nu /\
  exists w2, sender_claim utc_db ada_msg 0 W = (Ok true, w2) /\
    claim_and_deliver utc_db "https://hookbin.example" ada_msg 0 W =
      sender_deliver "https://hookbin.example" ada_msg w2.
Proof.
  intros W nu.
  assert (Hnu : next_notify_utc utc_db ada_msg (w_clock W) = Some nu)
    by (vm_compute; reflexivity).
  assert (Hf : w_fails W (w_calls W) = false) by reflexivity.
  split; [exact Hnu|].
  destruct (sender_claim_for_year utc_db "https://hookbin.example" ada_msg 0 W nu Hnu Hf)
    as (_ & Hwin & _).
  assert (Hc : claim_condition 0 (seen W !! ("USER#u1", "EVENT#birthday")) = true)
    by (vm_compute; reflexivity).
  destruct (Hwin Hc) as (Hclaim & Hdeliver & _).
  eexists. split; [exact Hclaim|exact Hdeliver].
Defined.

Lemma sender_webhook_outcome_witness :
  let W := world0 (fun _ => false) (fun _ => Some 503) in
  w_http W (w_calls W) = Some 503 /\
  exists w2,
    sender_deliver "https://hookbin.example" ada_msg W =
      (Throw (Error "Failed to send message to Hookbin for user Ada Lovelace"), w2).
Proof.
  intros W.
  assert (Hh : w_http W (w_calls W) = Some 503) by reflexivity.
  split; [exact Hh|].
  destruct (sender_webhook_outcome "https://hookbin.example" ada_msg W 503 Hh) as [Hfail _].
  assert (Hne : 503 <> 200) by lia.
  destruct (Hfail Hne) as (w2 & Hd & _). exists w2. exact Hd.
Defined.

(* ------------------------------------------------------------------ *)
(** ** Deduplication id and Idempotency-Key *)

Lemma string_append_assoc (a b c : string) : (a +++ b) +++ c = a +++ (b +++ c).
Proof.
  induction a as [|ch a IH]; [reflexivity|].
  change (String ch ((a +++ b) +++ c) = String ch (a +++ (b +++ c))).
  rewrite IH. reflexivity.
Qed.

(** The producer's send: the only [SendMessage] it issues carries the
    greeter message and [dedup_id] for the year of its clock. *)
Lemma enqueue_sends (queueName : string) (u : User) (ev : GreeterEvent) (w : World) :
  let y := year_of_ms (w_clock w) in
  exists l, w_trace (snd (enqueueGreeterMessage queueName u ev w)) = l ++ w_trace w /\
    forall url msg, In (ESqsSend url msg) l ->
      url = queueName /\ sm_body msg = greeter_message u ev y /\
      sm_dedup msg = dedup_id u ev y.
Proof.
  intros y. unfold enqueueGreeterMessage, bind at 1, now.
  unfold bind, getQueueUrl, sqs_send, aws_call.
  destruct (decide (queueName ∈ w_url_cache w)).
  - destruct (w_fails w (w_calls w)); cbn [snd w_trace issue set_store set_queues set_next_id].
    + exists [ESqsSend queueName (mkSqsMessage (greeter_message u ev (year_of_ms (w_clock w)))
                (js_hole (ge_type ev)) (dedup_id u ev (year_of_ms (w_clock w))))].
      split; [reflexivity|]. intros url msg [H|[]]. injection H as <- <-. auto.
    + exists [ESqsSend queueName (mkSqsMessage (greeter_message u ev (year_of_ms (w_clock w)))
                (js_hole (ge_type ev)) (dedup_id u ev (year_of_ms (w_clock w))))].
      split; [reflexivity|]. intros url msg [H|[]]. injection H as <- <-. auto.
  - destruct (w_fails w (w_calls w)); cbn [snd w_trace issue set_store set_url_cache w_fails w_calls].
    + exists [ESqsGetQueueUrl queueName]. split; [reflexivity|].
      intros url msg [H|[]]. discriminate.
    + destruct (w_fails w (S (w_calls w)));
        cbn [snd w_trace issue set_store set_queues set_next_id set_url_cache];
      exists [ESqsSend queueName (mkSqsMessage (greeter_message u ev (year_of_ms (w_clock w)))
                (js_hole (ge_type ev)) (dedup_id u ev (year_of_ms (w_clock w))));
              ESqsGetQueueUrl queueName];
      (split; [reflexivity|]); intros url msg [H|[H|[]]]; try discriminate;
      injection H as <- <-; auto.
Qed.

(** C6 (amended): for an event row of user [u] (partition key
    ["USER#" ++ u.id]), every message the producer enqueues for year [y]
    carries the deduplication id [{user_id}-{event_type}-{y}], and the
    sender's Idempotency-Key for that message is the same string prefixed
    with ["USER#"], i.e. [USER#{user_id}-{event_type}-{y}]. *)
Theorem idempotency_key_is_prefixed_dedup_id (queueName : string) (u : User)
  (ev : GreeterEvent) (w : World) :
  ge_pk ev = "USER#" +++ u_id u ->
  let y := year_of_ms (w_clock w) in
  (exists l, w_trace (snd (enqueueGreeterMessage queueName u ev w)) = l ++ w_trace w /\
    forall url msg, In (ESqsSend url msg) l ->
      sm_body msg = greeter_message u ev y /\ sm_dedup msg = dedup_id u ev y /\
      In ("Idempotency-Key", "USER#" +++ sm_dedup msg) (webhook_headers (sm_body msg))) /\
  idempotency_key (greeter_message u ev y) = "USER#" +++ dedup_id u ev y.
Proof.
  intros Hpk y.
  assert (Hkey : idempotency_key (greeter_message u ev y) = "USER#" +++ dedup_id u ev y).
  { unfold idempotency_key, greeter_message, dedup_id. cbn [gm_pk gm_eventType gm_yearNow].
    rewrite Hpk, string_append_assoc. reflexivity. }
  split; [|exact Hkey].
  destruct (enqueue_sends queueName u ev w) as (l & Ht & Hl).
  exists l. split; [exact Ht|]. intros url msg Hin.
  destruct (Hl url msg Hin) as (_ & Hb & Hd). rewrite Hb, Hd.
  split; [reflexivity|]. split; [reflexivity|].
  unfold webhook_headers. right. left. f_equal. exact Hkey.
Qed.

(** C6 counterexample: for [ada]'s birthday in 2026 the queue deduplication
    id and the webhook Idempotency-Key are different strings. *)
Lemma dedup_id_differs_from_idempotency_key :
  dedup_id ada ada_greeter_event 2026 = "u1-birthday-2026" /\
  idempotency_key (greeter_message ada ada_greeter_event 2026) = "USER#u1-birthday-2026" /\
  dedup_id ada ada_greeter_event 2026 <>
    idempotency_key (greeter_message ada ada_greeter_event 2026).
Proof. vm_compute. split; [reflexivity|]. split; [reflexivity|]. discriminate. Qed.

Lemma idempotency_key_is_prefixed_dedup_id_witness :
  let W := world0 (fun _ => false) (fun _ => Some 200) in
  ge_pk ada_greeter_event = "USER#" +++ u_id ada /\
  idempotency_key (greeter_message ada ada_greeter_event (year_of_ms (w_clock W))) =
    "USER#" +++ dedup_id ada ada_greeter_event (year_of_ms (w_clock W)).
Proof.
  intros W.
  assert (Hpk : ge_pk ada_greeter_event = "USER#" +++ u_id ada) by reflexivity.
  split; [exact Hpk|].
  destruct (idempotency_key_is_prefixed_dedup_id "greeter" ada ada_greeter_event W Hpk)
    as [_ Hk].
  exact Hk.
Defined.

(* ------------------------------------------------------------------ *)
(** ** Frames of the primitives *)

Section Frames.
Context (P : Effect -> bool).

Lemma frame_ret {A} (a : A) : frame P (ret a).
Proof. intros w. split; [reflexivity|]. split; [reflexivity|]. exists []. auto. Qed.

Lemma frame_throw {A} (e : Exn) : frame P (throw (A:=A) e).
Proof. intros w. split; [reflexivity|]. split; [reflexivity|]. exists []. auto. Qed.

Lemma frame_now : frame P now.
Proof. intros w. split; [reflexivity|]. split; [reflexivity|]. exists []. auto. Qed.

Lemma frame_log (l : LogLine) : P (ELog l) = true -> frame P (log l).
Proof.
  intros HP w. split; [reflexivity|]. split; [reflexivity|].
  exists [ELog l]. simpl. rewrite HP. auto.
Qed.

Lemma frame_bind {A B} (c : M A) (k : A -> M B) :
  frame P c -> (forall a, frame P (k a)) -> frame P (bind c k).
Proof.
  intros Hc Hk w. unfold bind.
  destruct (Hc w) as (Ho1 & Hs1 & l1 & Ht1 & Hp1).
  destruct (c w) as [[a|e] w1]; cbn [snd] in *.
  - destruct (Hk a w1) as (Ho2 & Hs2 & l2 & Ht2 & Hp2).
    split; [congruence|]. split.
    + intros Hid. rewrite Hs2, Hs1 by (try rewrite Ho1; exact Hid). reflexivity.
    + exists (l2 ++ l1). rewrite Ht2, Ht1, app_assoc, forallb_app, Hp1, Hp2. auto.
  - split; [exact Ho1|]. split; [exact Hs1|]. exists l1. auto.
Qed.

Lemma frame_catch {A} (c : M A) (h : Exn -> M A) :
  frame P c -> (forall e, frame P (h e)) -> frame P (catch c h).
Proof.
  intros Hc Hh w. unfold catch.
  destruct (Hc w) as (Ho1 & Hs1 & l1 & Ht1 & Hp1).
  destruct (c w) as [[a|e] w1]; cbn [snd] in *.
  - split; [exact Ho1|]. split; [exact Hs1|]. exists l1. auto.
  - destruct (Hh e w1) as (Ho2 & Hs2 & l2 & Ht2 & Hp2).
    split; [congruence|]. split.
    + intros Hid. rewrite Hs2, Hs1 by (try rewrite Ho1; exact Hid). reflexivity.
    + exists (l2 ++ l1). rewrite Ht2, Ht1, app_assoc, forallb_app, Hp1, Hp2. auto.
Qed.

(** A read-only remote call: it only numbers itself and lets the table be
    seen. *)
Lemma frame_aws_read {A} (e : Effect) (op : World -> Result A * World) :
  P e = true -> (forall w, snd (op w) = w) -> frame P (aws_call e op).
Proof.
  intros HP Hop w. unfold aws_call.
  destruct (w_fails w (w_calls w)); cbn [snd]; [|rewrite Hop];
    (split; [reflexivity|]); (split; [intros Hid; unfold seen; cbn; apply Hid|]);
    exists [e]; cbn; rewrite HP; auto.
Qed.

Lemma frame_dynamo_get (pk sk : string) :
  P (EDynamoGet pk sk) = true -> frame P (dynamo_get pk sk).
Proof. intros HP. apply frame_aws_read; [exact HP|reflexivity]. Qed.

Lemma frame_dynamo_query {A} (index : string) (page : Store -> A) :
  P (EDynamoQuery index) = true -> frame P (dynamo_query index page).
Proof. intros HP. apply frame_aws_read; [exact HP|reflexivity]. Qed.

Lemma frame_sqs_message_count (url : string) :
  P (ESqsGetAttributes url) = true -> frame P (sqs_message_count url).
Proof. intros HP. apply frame_aws_read; [exact HP|reflexivity]. Qed.

Lemma frame_getQueueUrl (name : string) :
  P (ESqsGetQueueUrl name) = true -> frame P (getQueueUrl name).
Proof.
  intros HP w. unfold getQueueUrl.
  destruct (decide (name ∈ w_url_cache w)).
  - split; [reflexivity|]. split; [reflexivity|]. exists []. auto.
  - unfold aws_call. destruct (w_fails w (w_calls w)); cbn [snd];
      (split; [reflexivity|]); (split; [intros Hid; unfold seen; cbn; apply Hid|]);
      exists [ESqsGetQueueUrl name]; cbn; rewrite HP; auto.
Qed.

Lemma frame_sqs_send (url : string) (m : SqsMessage) :
  P (ESqsSend url m) = true -> frame P (sqs_send url m).
Proof.
  intros HP w. unfold sqs_send, aws_call.
  destruct (w_fails w (w_calls w)); cbn [snd];
    (split; [reflexivity|]); (split; [intros Hid; unfold seen; cbn; apply Hid|]);
    exists [ESqsSend url m]; cbn; rewrite HP; auto.
Qed.

Lemma frame_fetch (url : string) (hs : list (string * string)) (body : string) :
  P (EFetch url hs body) = true -> frame P (fetch url hs body).
Proof.
  intros HP w. unfold fetch.
  destruct (w_http w (w_calls w)); cbn [snd];
    (split; [reflexivity|]); (split; [reflexivity|]);
    exists [EFetch url hs body]; cbn; rewrite HP; auto.
Qed.

End Frames.

(* ------------------------------------------------------------------ *)
(** ** The scheduler sweep *)

Lemma frame_enqueue (GQ : string) (u : User) (ev : GreeterEvent) :
  frame scheduler_effect (enqueueGreeterMessage GQ u ev).
Proof.
  unfold enqueueGreeterMessage.
  apply frame_bind; [apply frame_now|intros t].
  apply frame_bind; [apply frame_getQueueUrl; reflexivity|intros url].
  apply frame_sqs_send. reflexivity.
Qed.

Lemma frame_schedule_item (GQ : string) (it : Item) :
  frame scheduler_effect (schedule_item GQ it).
Proof.
  unfold schedule_item. apply frame_catch; [|intros; apply frame_ret].
  apply frame_bind; [apply frame_dynamo_get; reflexivity|intros r].
  destruct (r ≫= _).
  - apply frame_bind; [apply frame_enqueue|intros; apply frame_ret].
  - apply frame_bind; [apply frame_log; reflexivity|intros; apply frame_ret].
Qed.

Lemma frame_schedule_items (GQ : string) (its : list Item) :
  frame scheduler_effect (schedule_items GQ its).
Proof.
  induction its as [|it its IH]; simpl; [apply frame_ret|].
  apply frame_bind; [apply frame_schedule_item|intros r1].
  apply frame_bind; [exact IH|intros r2]. apply frame_ret.
Qed.

Lemma frame_scheduler_loop (GQ : string) (fuel : nat) (nowUtc currentYear : Z)
  (k : option nat) (st : SchedulerStats) :
  frame scheduler_effect (scheduler_loop GQ fuel nowUtc currentYear k st).
Proof.
  revert k st. induction fuel as [|fuel IH]; intros k st; simpl; [apply frame_ret|].
  apply frame_bind; [apply frame_dynamo_query; reflexivity|intros result].
  apply frame_bind; [apply frame_schedule_items|intros counts].
  destruct result.2; [apply IH|apply frame_ret].
Qed.

(** C7: a scheduler sweep, whether it completes, runs out of pages or aborts
    on a thrown error, leaves every stored row as it was (when no other
    worker writes meanwhile), and the only calls it makes are index queries,
    [METADATA] reads, queue URL lookups, queue sends and logs: no update of
    any row. *)
Theorem scheduler_never_writes (GQ : string) (fuel : nat) (w : World) :
  let w' := snd (scheduler GQ fuel w) in
  ((forall n s, w_others w n s = s) -> w_store w' = w_store w) /\
  exists l, w_trace w' = l ++ w_trace w /\ forallb scheduler_effect l = true /\
    forall pk sk sets cond, ~ In (EDynamoUpdate pk sk sets cond) l.
Proof.
  assert (Hf : frame scheduler_effect (scheduler GQ fuel)).
  { unfold scheduler. apply frame_bind; [apply frame_now|intros t].
    apply frame_scheduler_loop. }
  destruct (Hf w) as (_ & Hs & l & Ht & Hp).
  split; [exact Hs|]. exists l. split; [exact Ht|]. split; [exact Hp|].
  intros pk sk sets cond Hin. rewrite forallb_forall in Hp.
  specialize (Hp _ Hin). discriminate.
Qed.

Lemma scheduler_never_writes_witness :
  let W := world0 (fun _ => false) (fun _ => Some 200) in
  (forall n s, w_others W n s = s) /\
  w_store (snd (scheduler "greeter" 5 W)) = w_store W.
Proof.
  intros W.
  assert (Hid : forall n s, w_others W n s = s) by reflexivity.
  split; [exact Hid|].
  destruct (scheduler_never_writes "greeter" 5 W) as [Hs _]. exact (Hs Hid).
Defined.

(* ------------------------------------------------------------------ *)
(** ** The DLQ processor *)

Lemma frame_any_sqs_receive (url : string) (max : Z) :
  frame (fun _ => true) (sqs_receive url max).
Proof. apply frame_aws_read; reflexivity. Qed.

Lemma frame_any_sqs_delete (url : string) (receipt : Z) :
  frame (fun _ => true) (sqs_delete url receipt).
Proof.
  intros w. unfold sqs_delete, aws_call.
  destruct (w_fails w (w_calls w)); cbn [snd];
    (split; [reflexivity|]); (split; [intros Hid; unfold seen; cbn; apply Hid|]);
    exists [ESqsDelete url receipt]; auto.
Qed.

Lemma frame_any_redriveMessages (GQ DLQ : string) (max : Z) :
  frame (fun _ => true) (redriveMessages GQ DLQ max).
Proof.
  unfold redriveMessages. apply frame_catch; [|intros; apply frame_ret].
  apply frame_bind; [apply frame_getQueueUrl; reflexivity|intros dlqUrl].
  apply frame_bind; [apply frame_getQueueUrl; reflexivity|intros gqUrl].
  apply frame_bind; [apply frame_any_sqs_receive|intros ms].
  induction ms as [|p ms IH]; simpl; [apply frame_ret|].
  apply frame_bind; [|intros r1; apply frame_bind; [exact IH|intros; apply frame_ret]].
  unfold redrive_one. apply frame_catch; [|intros; apply frame_ret].
  apply frame_bind; [apply frame_now|intros t].
  apply frame_bind; [apply frame_sqs_send; reflexivity|intros _].
  apply frame_bind; [apply frame_any_sqs_delete|intros; apply frame_ret].
Qed.

Lemma catch_bind {A B} (c : M A) (k : A -> M B) (h : Exn -> M B) (w : World) :
  catch (bind c k) h w =
  match c w with
  | (Ok a, w1) => catch (k a) h w1
  | (Throw e, w1) => h e w1
  end.
Proof. unfold catch, bind. destruct (c w) as [[a|e] w1]; reflexivity. Qed.

(** [getMessageCount] never throws: it yields a count of at least 0, and
    only resolves the queue and reads its attributes. *)
Lemma getMessageCount_spec (queueName : string) (w : World) :
  exists c, fst (getMessageCount queueName w) = Ok c /\ 0 <= c /\
  exists l, w_trace (snd (getMessageCount queueName w)) = l ++ w_trace w /\
    forallb quiet_effect l = true.
Proof.
  assert (Hf : frame quiet_effect (getMessageCount queueName)).
  { unfold getMessageCount. apply frame_catch; [|intros; apply frame_ret].
    apply frame_bind; [apply frame_getQueueUrl; reflexivity|intros url].
    apply frame_sqs_message_count. reflexivity. }
  destruct (Hf w) as (_ & _ & l & Ht & Hp).
  assert (Hr : exists c, fst (getMessageCount queueName w) = Ok c /\ 0 <= c).
  { unfold getMessageCount. rewrite catch_bind.
    destruct (getQueueUrl queueName w) as [[url|e] w1].
    - unfold catch, sqs_message_count, aws_call.
      destruct (w_fails w1 (w_calls w1)); cbn [fst]; eexists; split; try reflexivity; lia.
    - eexists. split; [reflexivity|lia]. }
  destruct Hr as (c & Hc & Hpos). exists c. split; [exact Hc|]. split; [exact Hpos|].
  exists l. auto.
Qed.

(** [checkServiceHealth] never throws: it makes one webhook call and reports
    healthy exactly when that call answered 200. *)
Lemma checkServiceHealth_spec (hook : string) (w : World) :
  exists h hs body,
    checkServiceHealth hook w = (Ok h, issue (EFetch hook hs body) w) /\
    (h = true <-> w_http w (w_calls w) = Some 200).
Proof.
  unfold checkServiceHealth, catch, bind, now, fetch, ret.
  destruct (w_http w (w_calls w)) as [status|].
  - do 3 eexists. split; [reflexivity|].
    rewrite Z.eqb_eq. split; [intros ->; reflexivity|congruence].
  - do 3 eexists. split; [reflexivity|]. split; discriminate.
Qed.

Lemma frame_weaken {A} (P Q : Effect -> bool) (c : M A) :
  (forall e, P e = true -> Q e = true) -> frame P c -> frame Q c.
Proof.
  intros HPQ Hc w. destruct (Hc w) as (Ho & Hs & l & Ht & Hp).
  split; [exact Ho|]. split; [exact Hs|]. exists l. split; [exact Ht|].
  rewrite forallb_forall in *. intros e He. apply HPQ, Hp, He.
Qed.

Lemma frame_any_dlqProcessor (hook GQ DLQ : string) :
  frame (fun _ => true) (dlqProcessor hook GQ DLQ).
Proof.
  unfold dlqProcessor. apply frame_catch; [|intros; apply frame_ret].
  apply frame_bind.
  { apply (frame_weaken quiet_effect); [reflexivity|].
    unfold getMessageCount. apply frame_catch; [|intros; apply frame_ret].
    apply frame_bind; [apply frame_getQueueUrl; reflexivity|intros url].
    apply frame_sqs_message_count. reflexivity. }
  intros count. destruct (count =? 0).
  - apply frame_bind; [apply frame_log; reflexivity|intros; apply frame_ret].
  - apply frame_bind.
    { unfold checkServiceHealth. apply frame_catch; [|intros; apply frame_ret].
      apply frame_bind; [apply frame_now|intros t].
      apply frame_bind; [apply frame_fetch; reflexivity|intros; apply frame_ret]. }
    intros healthy. destruct (negb healthy).
    + apply frame_bind; [apply frame_log; reflexivity|intros; apply frame_ret].
    + apply frame_bind; [apply frame_any_redriveMessages|intros; apply frame_ret].
Qed.

(** C8: a DLQ processor run moves no message (no receive, send or delete)
    unless the depth it read is above 0 and the health probe answered 200;
    with a depth of 0 it returns at once, with no probe; with a probe other
    than 200 it returns without moving any message. *)
Theorem dlq_redrive_gated (hook GQ DLQ : string) (w : World) :
  let w1 := snd (getMessageCount DLQ w) in
  exists c, fst (getMessageCount DLQ w) = Ok c /\
  exists l, w_trace (snd (dlqProcessor hook GQ DLQ w)) = l ++ w_trace w /\
    ((exists e, In e l /\ redrive_effect e = true) ->
     0 < c /\ w_http w1 (w_calls w1) = Some 200) /\
    (c = 0 ->
     dlqProcessor hook GQ DLQ w =
       (Ok (200, "DLQ is empty", mkDLQStats 0 0 0 0 false), add_log LogDlqEmpty w1) /\
     forallb quiet_effect l = true) /\
    (c <> 0 -> w_http w1 (w_calls w1) <> Some 200 ->
     fst (dlqProcessor hook GQ DLQ w) =
       Ok (200, "Service unhealthy, redrive skipped", mkDLQStats c 0 0 0 false) /\
     forallb (fun e => negb (redrive_effect e)) l = true).
Proof.
  intros w1. subst w1.
  destruct (getMessageCount_spec DLQ w) as (c & Hc & Hpos & l1 & Ht1 & Hq1).
  destruct (frame_any_dlqProcessor hook GQ DLQ w) as (_ & _ & l & Ht & _).
  exists c. split; [exact Hc|]. exists l. split; [exact Ht|].
  destruct (getMessageCount DLQ w) as [r v] eqn:E. cbn [fst snd] in *. subst r.
  assert (Hd : dlqProcessor hook GQ DLQ w =
    catch ((fun count : Z =>
      if count =? 0 then
        log LogDlqEmpty ;;
        ret (200, "DLQ is empty", mkDLQStats count 0 0 0 false)
      else
        healthy <- checkServiceHealth hook ;;
        if negb healthy then
          log LogServiceUnhealthy ;;
          ret (200, "Service unhealthy, redrive skipped", mkDLQStats count 0 0 0 false)
        else
          counts <- redriveMessages GQ DLQ (Z.min count 10) ;;
          ret (200, "DLQ processing completed",
               mkDLQStats count (counts.1 + counts.2) counts.1 counts.2 true)) c)
      (fun _ => ret (500, "DLQ Processor failed", mkDLQStats 0 0 0 0 false)) v).
  { unfold dlqProcessor. rewrite catch_bind, E. reflexivity. }
  cbv beta in Hd.
  destruct (c =? 0) eqn:Hc0.
  - apply Z.eqb_eq in Hc0. subst c.
    assert (Hd0 : dlqProcessor hook GQ DLQ w =
      (Ok (200, "DLQ is empty", mkDLQStats 0 0 0 0 false), add_log LogDlqEmpty v))
      by (rewrite Hd; reflexivity).
    rewrite Hd0 in Ht. cbn [snd w_trace add_log] in Ht. rewrite Ht1 in Ht.
    change (ELog LogDlqEmpty :: l1 ++ w_trace w) with ((ELog LogDlqEmpty :: l1) ++ w_trace w) in Ht.
    apply app_inv_tail in Ht. subst l.
    split; [|split; [intros _; split; [exact Hd0|exact Hq1]|intros Hne; congruence]].
    intros (e & [<- | Hin] & Hr); [discriminate|].
    rewrite forallb_forall in Hq1. specialize (Hq1 e Hin).
    destruct e; cbn in Hq1, Hr; congruence.
  - apply Z.eqb_neq in Hc0.
    destruct (checkServiceHealth_spec hook v) as (h & hs & body & Hh & Hiff).
    rewrite catch_bind, Hh in Hd.
    destruct h.
    + split; [intros _; split; [lia|apply Hiff; reflexivity]|].
      split; [intros; contradiction|]. intros _ Hne. exfalso. apply Hne, Hiff. reflexivity.
    + cbn [negb] in Hd.
      assert (Hd1 : dlqProcessor hook GQ DLQ w =
        (Ok (200, "Service unhealthy, redrive skipped", mkDLQStats c 0 0 0 false),
         add_log LogServiceUnhealthy (issue (EFetch hook hs body) v)))
        by (rewrite Hd; reflexivity).
      rewrite Hd1 in Ht. cbn [snd w_trace add_log issue] in Ht. rewrite Ht1 in Ht.
      change (ELog LogServiceUnhealthy :: EFetch hook hs body :: l1 ++ w_trace w) with
        ((ELog LogServiceUnhealthy :: EFetch hook hs body :: l1) ++ w_trace w) in Ht.
      apply app_inv_tail in Ht. subst l.
      assert (Hnr : forallb (fun e => negb (redrive_effect e))
                      (ELog LogServiceUnhealthy :: EFetch hook hs body :: l1) = true).
      { cbn [forallb redrive_effect negb andb]. rewrite forallb_forall in *.
        intros e Hin. specialize (Hq1 e Hin). destruct e; cbn in *; congruence. }
      split.
      * intros (e & Hin & Hr). rewrite forallb_forall in Hnr.
        specialize (Hnr e Hin). rewrite Hr in Hnr. discriminate.
      * split; [intros; contradiction|]. intros _ _. rewrite Hd1. split; [reflexivity|exact Hnr].
Qed.

(** C10: when the queue-attributes call of the depth query throws (with the
    DLQ URL cached, or resolved by a successful first call), [getMessageCount]
    returns 0 instead of the error, and the DLQ processor answers
    "DLQ is empty": the run made no health probe and moved no message. *)
Theorem dlq_count_failure_reads_as_empty (hook GQ DLQ : string) (w : World) :
  (DLQ ∈ w_url_cache w /\ w_fails w (w_calls w) = true) \/
  (DLQ ∉ w_url_cache w /\ w_fails w (w_calls w) = false /\ w_fails w (S (w_calls w)) = true) ->
  exists w1,
    getMessageCount DLQ w = (Ok 0, w1) /\
    dlqProcessor hook GQ DLQ w =
      (Ok (200, "DLQ is empty", mkDLQStats 0 0 0 0 false), add_log LogDlqEmpty w1) /\
    exists l, w_trace w1 = l ++ w_trace w /\ forallb quiet_effect l = true /\
      In (ESqsGetAttributes DLQ) l.
Proof.
  intros Hcase.
  assert (Hg : exists w1, getMessageCount DLQ w = (Ok 0, w1) /\
                 exists l, w_trace w1 = l ++ w_trace w /\ forallb quiet_effect l = true /\
                   In (ESqsGetAttributes DLQ) l).
  { unfold getMessageCount. rewrite catch_bind. unfold getQueueUrl.
    destruct Hcase as [[Hin Hf] | (Hnin & Hf0 & Hf1)].
    - destruct (decide (DLQ ∈ w_url_cache w)); [|contradiction].
      unfold sqs_message_count, aws_call, catch. rewrite Hf.
      eexists. split; [reflexivity|].
      exists [ESqsGetAttributes DLQ]. split; [reflexivity|]. split; [reflexivity|].
      left. reflexivity.
    - destruct (decide (DLQ ∈ w_url_cache w)); [contradiction|].
      unfold aws_call at 1. rewrite Hf0. cbn [set_url_cache].
      unfold sqs_message_count, aws_call, catch. cbn [w_fails w_calls issue set_store].
      cbn [w_fails w_calls issue set_store set_url_cache]. rewrite Hf1. eexists. split; [reflexivity|].
      exists [ESqsGetAttributes DLQ; ESqsGetQueueUrl DLQ]. split; [reflexivity|].
      split; [reflexivity|]. left. reflexivity. }
  destruct Hg as (w1 & Hgm & Hl).
  exists w1. split; [exact Hgm|]. split; [|exact Hl].
  unfold dlqProcessor. rewrite catch_bind, Hgm. reflexivity.
Qed.

Lemma dlq_count_failure_reads_as_empty_witness :
  let W := world0 (fun n => Nat.eqb n 1) (fun _ => Some 200) in
  ("dlq" ∉ w_url_cache W /\ w_fails W (w_calls W) = false /\
   w_fails W (S (w_calls W)) = true) /\
  exists w1,
    dlqProcessor "https://hookbin.example" "greeter" "dlq" W =
      (Ok (200, "DLQ is empty", mkDLQStats 0 0 0 0 false), add_log LogDlqEmpty w1).
Proof.
  intros W.
  assert (Hc : "dlq" ∉ w_url_cache W /\ w_fails W (w_calls W) = false /\
               w_fails W (S (w_calls W)) = true).
  { split; [vm_compute; intros H; inversion H|]. split; reflexivity. }
  split; [exact Hc|].
  destruct (dlq_count_failure_reads_as_empty "https://hookbin.example" "greeter" "dlq" W
              (or_intror Hc)) as (w1 & _ & Hd & _).
  exists w1. exact Hd.
Defined.

(* ------------------------------------------------------------------ *)
(** ** The health monitor's status *)

(** C9: the status is [healthy] exactly when missed plus stuck events number
    0, [warning] exactly when they number 1 to 4, and [critical] exactly when
    they number 5 or more. *)
Theorem health_status_classification {A B : Type} (missed : list A) (stuck : list B) :
  let total := (length missed + length stuck)%nat in
  (health_status missed stuck = Healthy <-> total = 0%nat) /\
  (health_status missed stuck = Warning <-> (1 <= total <= 4)%nat) /\
  (health_status missed stuck = Critical <-> (5 <= total)%nat).
Proof.
  intros total. unfold health_status. cbv zeta.
  assert (Ht : Z.of_nat (length missed) + Z.of_nat (length stuck) = Z.of_nat total)
    by (subst total; lia).
  rewrite Ht.
  destruct (Z.ltb_spec 0 (Z.of_nat total)) as [H1|H1];
    destruct (Z.ltb_spec (Z.of_nat total) 5) as [H2|H2];
    destruct (Z.leb_spec 5 (Z.of_nat total)) as [H3|H3]; cbn [andb];
    (split; [|split]); split; intros H; try discriminate; try lia; reflexivity.
Qed.

(* ------------------------------------------------------------------ *)
(** * Further properties of the handlers and utilities *)

Lemma is_digit_char (c : ascii) :
  is_digit c = true -> exists d, 0 <= d <= 9 /\ c = digit_char d.
Proof.
  unfold is_digit. rewrite andb_true_iff, !Nat.leb_le. intros [H1 H2].
  exists (Z.of_nat (nat_of_ascii c) - 48). split; [lia|].
  unfold digit_char. rewrite <- (ascii_nat_embedding c) at 1. f_equal.
  rewrite Z2Nat.inj_sub, Nat2Z.id by lia. simpl. lia.
Qed.

Lemma char_in_range (c : ascii) (k : nat) :
  (k <= 10)%nat -> char_in c (substring 0 k "0123456789") = true ->
  exists d, 0 <= d < Z.of_nat k /\ c = digit_char d.
Proof.
  intros Hk H. exists (Z.of_nat (nat_of_ascii c) - 48).
  destruct k as [|[|[|[|[|[|[|[|[|[|[|k]]]]]]]]]]]; [..|lia];
    simpl in H; repeat (apply orb_true_iff in H as [H|H]); try discriminate;
    apply Ascii.eqb_eq in H as ->; (split; [vm_compute; intuition discriminate|reflexivity]).
Qed.

Lemma digits_div_mod (a b : Z) :
  0 <= a -> 0 <= b <= 9 -> (10 * a + b) / 10 = a /\ (10 * a + b) mod 10 = b.
Proof.
  intros Ha Hb. split.
  - symmetry. apply Z.div_unique with b; lia.
  - symmetry. apply Z.mod_unique with a; lia.
Qed.

Lemma format_HHmm_digits (a b c d : Z) :
  0 <= a -> 0 <= b <= 9 -> 0 <= c -> 0 <= d <= 9 ->
  format_HHmm (mkHHMM (10 * a + b) (10 * c + d)) =
  String (digit_char a) (String (digit_char b) (String ":"
    (String (digit_char c) (String (digit_char d) EmptyString)))).
Proof.
  intros Ha Hb Hc Hd. unfold format_HHmm. cbn [t_hour t_minute].
  destruct (digits_div_mod a b Ha Hb) as [-> ->].
  destruct (digits_div_mod c d Hc Hd) as [-> ->]. reflexivity.
Qed.

(** The [notifyLocalTime] pattern of schema.ts, [^([01]\d|2[0-3]):([0-5]\d)$], accepts exactly the five-character strings 'HH:mm' of an hour 00 to 23 and a minute 00 to 59. *)
Theorem notifyLocalTime_pattern_spec (s : string) :
  notifyLocalTime_pattern s = true <->
  exists t, 0 <= t_hour t <= 23 /\ 0 <= t_minute t <= 59 /\ s = format_HHmm t.
Proof.
  split.
  - destruct s as [|h1 [|h2 [|c [|m1 [|m2 [|]]]]]]; try discriminate.
    unfold notifyLocalTime_pattern. intros H.
    apply andb_true_iff in H as [H H34]. apply andb_true_iff in H as [H12 Hc].
    apply Ascii.eqb_eq in Hc as ->. apply andb_true_iff in H34 as [H3 H4].
    apply orb_true_iff in H12 as [H12|H12]; apply andb_true_iff in H12 as [H1 H2].
    + apply (char_in_range h1 2) in H1 as (a & Ha & ->); [|lia].
      apply is_digit_char in H2 as (b & Hb & ->).
      apply (char_in_range m1 6) in H3 as (c & Hc & ->); [|lia].
      apply is_digit_char in H4 as (d & Hd & ->).
      exists (mkHHMM (10 * a + b) (10 * c + d)). cbn [t_hour t_minute].
      split; [lia|]. split; [lia|]. rewrite format_HHmm_digits by lia. reflexivity.
    + apply Ascii.eqb_eq in H1 as ->.
      apply (char_in_range h2 4) in H2 as (b & Hb & ->); [|lia].
      apply (char_in_range m1 6) in H3 as (c & Hc & ->); [|lia].
      apply is_digit_char in H4 as (d & Hd & ->).
      exists (mkHHMM (10 * 2 + b) (10 * c + d)). cbn [t_hour t_minute].
      split; [lia|]. split; [lia|]. rewrite format_HHmm_digits by lia. reflexivity.
  - intros ([h m] & Hh & Hm & ->). cbn [t_hour t_minute] in Hh, Hm.
    assert (Hall : check_range (fun h => check_range (fun m =>
                     notifyLocalTime_pattern (format_HHmm (mkHHMM h m))) 0 60) 0 24 = true)
      by (vm_compute; reflexivity).
    pose proof (check_range_ok _ _ 0 Hall h ltac:(lia)) as Hrow.
    exact (check_range_ok _ _ 0 Hrow m ltac:(lia)).
Qed.

(** The page size of listUser and listEvents is always between 1 and 100, and it is 10 when neither [limit] nor [pageSize] is given (absent or empty). *)
Theorem page_size_bounds (limit pageSize : option string) :
  1 <= page_size limit pageSize <= 100 /\
  ((limit = None \/ limit = Some "") -> (pageSize = None \/ pageSize = Some "") ->
   page_size limit pageSize = 10).
Proof.
  split.
  - unfold page_size.
    destruct (match js_or_opt limit pageSize with
              | Some s => if String.eqb s "" then None else parseInt10 s
              | None => None end) as [n|]; [|lia].
    destruct (Z.leb_spec n 0); lia.
  - intros Hl Hp. unfold page_size, js_or_opt.
    destruct Hl as [->| ->]; destruct Hp as [->| ->]; reflexivity.
Qed.

Lemma digit_char_step (d : Z) (s : string) (a : Z) (b : bool) :
  0 <= d <= 9 ->
  decimal_prefix (String (digit_char d) s) a b = decimal_prefix s (10 * a + d) true.
Proof.
  intros Hd. cbn [decimal_prefix]. unfold is_digit, digit_char.
  rewrite nat_ascii_embedding by lia.
  replace ((48 <=? 48 + Z.to_nat d)%nat && (48 + Z.to_nat d <=? 57)%nat)
    with true by (symmetry; apply andb_true_iff; rewrite !Nat.leb_le; lia).
  f_equal. lia.
Qed.

Lemma decimal_prefix_digits (ds : list Z) :
  List.Forall (fun d => 0 <= d <= 9) ds ->
  forall acc, decimal_prefix (digits_string ds) acc true = Some (digits_value_from acc ds).
Proof.
  induction 1 as [|d ds Hd _ IH]; intros acc; [reflexivity|].
  cbn [digits_string digits_value_from]. rewrite digit_char_step by exact Hd. apply IH.
Qed.

Lemma digit_not_special (ch : ascii) :
  is_digit ch = true -> js_space ch = false /\ Ascii.eqb ch "-" = false /\ Ascii.eqb ch "+" = false.
Proof.
  unfold is_digit. rewrite andb_true_iff, !Nat.leb_le. intros [H1 H2].
  unfold js_space. repeat split.
  - set (k := nat_of_ascii ch) in *. cbn [existsb].
    repeat (rewrite (proj2 (Nat.eqb_neq k _)) by lia; cbn [orb]). reflexivity.
  - apply Ascii.eqb_neq. intros ->. vm_compute in H1. lia.
  - apply Ascii.eqb_neq. intros ->. vm_compute in H1. lia.
Qed.

Lemma parseInt10_decimal_text (neg : bool) (ds : list Z) :
  ds <> [] -> List.Forall (fun d => 0 <= d <= 9) ds ->
  parseInt10 (decimal_text neg ds) =
  Some (if neg then - digits_value ds else digits_value ds).
Proof.
  intros Hne Hall. destruct ds as [|d ds']; [congruence|].
  inversion Hall as [|? ? Hd Hall']; subst.
  unfold parseInt10, decimal_text, digits_value. destruct neg.
  - cbn [trim_start]. replace (js_space "-") with false by reflexivity.
    replace (Ascii.eqb "-" "-") with true by reflexivity.
    cbn [digits_string]. rewrite digit_char_step by exact Hd.
    rewrite decimal_prefix_digits by exact Hall'. reflexivity.
  - assert (Hch : is_digit (digit_char d) = true).
    { unfold is_digit, digit_char. rewrite nat_ascii_embedding by lia.
      apply andb_true_iff. rewrite !Nat.leb_le. lia. }
    destruct (digit_not_special _ Hch) as (Hsp & Hm & Hp).
    cbn [digits_string trim_start]. rewrite Hsp, Hm, Hp, digit_char_step by exact Hd.
    rewrite decimal_prefix_digits by exact Hall'. reflexivity.
Qed.

(** A decimal [limit] parameter of any length, an optional minus sign
    followed by one or more digits, with value [n], gives the page size
    [min(n, 100)] when [n] is positive and 10 otherwise. *)
Theorem page_size_of_decimal (neg : bool) (ds : list Z) (pageSize : option string) :
  ds <> [] -> List.Forall (fun d => 0 <= d <= 9) ds ->
  page_size (Some (decimal_text neg ds)) pageSize =
  (let n := if neg then - digits_value ds else digits_value ds in
   if n <=? 0 then 10 else Z.min n 100).
Proof.
  intros Hne Hall. unfold page_size, js_or_opt.
  assert (Hs : String.eqb (decimal_text neg ds) "" = false).
  { destruct ds as [|d ds']; [congruence|]. destruct neg; reflexivity. }
  rewrite Hs, Hs, parseInt10_decimal_text by assumption. reflexivity.
Qed.

Lemma page_size_of_decimal_witness :
  (repeat 9 25 <> [] /\ List.Forall (fun d => 0 <= d <= 9) (repeat 9 25)) /\
  page_size (Some (decimal_text false (repeat 9 25))) None = 100.
Proof.
  assert (Hne : repeat 9 25 <> []) by (apply (bool_decide_unpack _); vm_compute; reflexivity).
  assert (Hall : List.Forall (fun d => 0 <= d <= 9) (repeat 9 25))
    by (apply (bool_decide_unpack _); vm_compute; reflexivity).
  split; [split; [exact Hne | exact Hall]|].
  rewrite (page_size_of_decimal false (repeat 9 25) None Hne Hall). vm_compute. reflexivity.
Defined.

Lemma event_item_key (pk : string) (c u : Z) (e : UserEvent) :
  item_key (event_item pk c u e) = (Some pk, Some ("EVENT#" +++ ue_type e)).
Proof.
  unfold item_key, event_item, attr_str.
  destruct (ue_label e) as [l|]; [destruct (String.eqb l "")|]; reflexivity.
Qed.

(** flattenUserToDynamoDBItems produces the METADATA row first, then one row per event keyed [USER#id] / [EVENT#type], in event order; the rows have pairwise distinct keys exactly when the event types are pairwise distinct. *)
Theorem flatten_keys (nowIso : Z) (user : User) (createdAt updatedAt : option Z)
  (events : list UserEvent) :
  let rows := flattenUserToDynamoDBItems nowIso user createdAt updatedAt events in
  map item_key rows =
    (Some ("USER#" +++ u_id user), Some "METADATA")
    :: map (fun e => (Some ("USER#" +++ u_id user), Some ("EVENT#" +++ ue_type e))) events /\
  (NoDup (map item_key rows) <-> NoDup (map ue_type events)).
Proof.
  intros rows.
  assert (Hk : map item_key rows =
    (Some ("USER#" +++ u_id user), Some "METADATA")
    :: map (fun e => (Some ("USER#" +++ u_id user), Some ("EVENT#" +++ ue_type e))) events).
  { unfold rows, flattenUserToDynamoDBItems. cbn [map]. f_equal.
    rewrite map_map. apply map_ext. intros e. apply event_item_key. }
  split; [exact Hk|]. rewrite Hk.
  set (g := fun t : string => (Some ("USER#" +++ u_id user), Some ("EVENT#" +++ t))).
  assert (Hg : map (fun e => (Some ("USER#" +++ u_id user), Some ("EVENT#" +++ ue_type e))) events
               = map g (map ue_type events)) by (rewrite map_map; reflexivity).
  rewrite Hg.
  assert (Hinj : forall a b, g a = g b -> a = b).
  { intros a b Hab. unfold g in Hab. injection Hab as Hab. simpl in Hab.
    repeat (injection Hab as Hab). exact Hab. }
  rewrite !NoDup_ListNoDup. split.
  - intros Hnd. apply NoDup_cons_iff in Hnd as [_ Hnd]. exact (NoDup_map_inv g _ Hnd).
  - intros Hnd. constructor.
    + intros Hin. apply in_map_iff in Hin as (t & Ht & _). unfold g in Ht. discriminate Ht.
    + apply NoDup_map_NoDup_ForallPairs; [|exact Hnd].
      intros a b _ _. apply Hinj.
Qed.

Lemma in_index_items (s : Store) (k : Key) (it : Item) :
  s !! k = Some it -> attr_str it "GSI1PK" = Some "EVENT" ->
  is_Some (attr_instant it "notifyUtc") -> In it (index_items s).
Proof.
  intros Hk Hg Hn. unfold index_items.
  eapply Permutation_in; [symmetry; apply merge_sort_Permutation|].
  apply filter_In. split.
  - apply in_map_iff. exists (k, it). split; [reflexivity|].
    apply list_elem_of_In, elem_of_map_to_list. exact Hk.
  - apply andb_true_iff. split; apply bool_decide_eq_true; assumption.
Qed.

(** Every event row written by flattenUserToDynamoDBItems is visible on the AllEventsIndex wherever it is stored, starts in [pending], and satisfies the sender's claim condition for its stored [lastSentYear]. *)
Theorem flatten_event_rows_ready (nowIso : Z) (user : User) (createdAt updatedAt : option Z)
  (events : list UserEvent) (r : Item) :
  In r (tl (flattenUserToDynamoDBItems nowIso user createdAt updatedAt events)) ->
  (forall (s : Store) (k : Key), s !! k = Some r -> In r (index_items s)) /\
  attr_status r "sendingStatus" = Some Pending /\
  claim_condition (default 0 (attr_num r "lastSentYear")) (Some r) = true.
Proof.
  unfold flattenUserToDynamoDBItems. cbn [tl]. intros Hin.
  apply in_map_iff in Hin as (e & <- & _).
  set (pk := "USER#" +++ u_id user).
  set (cu := default nowIso createdAt). set (uu := default cu updatedAt).
  assert (Hattrs : attr_str (event_item pk cu uu e) "GSI1PK" = Some "EVENT" /\
                   attr_instant (event_item pk cu uu e) "notifyUtc" = Some (ue_notifyUtc e) /\
                   attr_status (event_item pk cu uu e) "sendingStatus" = Some Pending /\
                   attr_num (event_item pk cu uu e) "lastSentYear" = Some (ue_lastSentYear e) /\
                   event_item pk cu uu e !! "sendingStatus" = Some (AStatus Pending)).
  { unfold event_item, attr_str, attr_instant, attr_status, attr_num.
    destruct (ue_label e) as [l|]; [destruct (String.eqb l "")|];
      repeat split; reflexivity. }
  destruct Hattrs as (Hg & Hn & Hst & Hy & Hs).
  split; [|split; [exact Hst|]].
  - intros s k Hk. apply (in_index_items s k); [exact Hk|exact Hg|rewrite Hn; eauto].
  - unfold claim_condition. rewrite Hy, Hs. cbn. rewrite Z.eqb_refl. reflexivity.
Qed.

Lemma flatten_event_rows_ready_witness :
  let ev := mkUserEvent "birthday" (mkDate 1990 6 15) (mkHHMM 9 0) t0 None None 0 None in
  let r := event_item ("USER#" +++ "u1") t0 t0 ev in
  In r (tl (flattenUserToDynamoDBItems t0 ada None None [ev])) /\
  claim_condition 0 (Some r) = true.
Proof.
  intros ev r.
  assert (Hin : In r (tl (flattenUserToDynamoDBItems t0 ada None None [ev])))
    by (left; reflexivity).
  split; [exact Hin|].
  destruct (flatten_event_rows_ready t0 ada None None [ev] r Hin) as (_ & _ & H).
  exact H.
Defined.

Lemma redrive_one_result (dlq gq : string) (p : Z * SqsMessage) (w : World) :
  fst (redrive_one dlq gq p w) = Ok (1, 0) \/ fst (redrive_one dlq gq p w) = Ok (0, 1).
Proof.
  unfold redrive_one, catch, bind, now, sqs_send, sqs_delete, aws_call, ret. cbn.
  destruct (w_fails w (w_calls w)); cbn; [right; reflexivity|].
  destruct (w_fails w (S (w_calls w))); cbn; [right|left]; reflexivity.
Qed.

Lemma redrive_all_count (dlq gq : string) (ms : list (Z * SqsMessage)) :
  forall w, exists r f, fst (redrive_all dlq gq ms w) = Ok (r, f) /\ 0 <= r /\ 0 <= f /\
    r + f = Z.of_nat (length ms).
Proof.
  induction ms as [|p rest IH]; intros w.
  - exists 0, 0. simpl. repeat split; lia.
  - cbn [redrive_all]. unfold bind at 1.
    destruct (redrive_one dlq gq p w) as [r1 w1] eqn:H1.
    assert (Hr1 : r1 = Ok (1, 0) \/ r1 = Ok (0, 1)).
    { pose proof (redrive_one_result dlq gq p w) as Hr. rewrite H1 in Hr. exact Hr. }
    destruct (IH w1) as (r & f & Hrest & Hr & Hf & Hsum).
    unfold bind. destruct (redrive_all dlq gq rest w1) as [r2 w2] eqn:H2.
    cbn [fst] in Hrest. subst r2.
    destruct Hr1 as [-> | ->]; cbn; [exists (1 + r), (0 + f)|exists (0 + r), (1 + f)];
      (split; [reflexivity|]); rewrite Nat2Z.inj_succ; lia.
Qed.

Lemma redriveMessages_count (GQ DLQ : string) (max : Z) (w : World) :
  exists r f, fst (redriveMessages GQ DLQ max w) = Ok (r, f) /\ 0 <= r /\ 0 <= f /\
    r + f <= Z.of_nat (Z.to_nat max).
Proof.
  unfold redriveMessages. rewrite catch_bind.
  destruct (getQueueUrl DLQ w) as [[dlqUrl|e] w1]; [|exists 0, 0; cbn; repeat split; lia].
  rewrite catch_bind.
  destruct (getQueueUrl GQ w1) as [[gqUrl|e] w2]; [|exists 0, 0; cbn; repeat split; lia].
  rewrite catch_bind. unfold sqs_receive, aws_call at 1.
  destruct (w_fails w2 (w_calls w2)); [exists 0, 0; cbn; repeat split; lia|].
  set (w3 := issue (ESqsReceive dlqUrl max) (set_store (seen w2) w2)).
  set (ms := take (Z.to_nat max) (queue w3 dlqUrl)).
  destruct (redrive_all_count dlqUrl gqUrl ms w3) as (r & f & Hr & Hr0 & Hf0 & Hsum).
  unfold catch. destruct (redrive_all dlqUrl gqUrl ms w3) as [res w4] eqn:H4.
  cbn [fst] in Hr. subst res. exists r, f. repeat split; try lia.
  rewrite Hsum. apply inj_le. unfold ms. rewrite length_take. lia.
Qed.

(** dlqProcessor never throws; the messages it reports processed are the redriven ones plus the failed ones, both counts are non-negative, and at most [min(messagesInDLQ, 10)] messages are processed. *)
Theorem dlqProcessor_counts (hook GQ DLQ : string) (w : World) :
  exists code message st,
    fst (dlqProcessor hook GQ DLQ w) = Ok (code, message, st) /\
    messagesProcessed st = messagesRedriven st + messagesFailed st /\
    0 <= messagesRedriven st /\ 0 <= messagesFailed st /\
    messagesProcessed st <= Z.min (messagesInDLQ st) 10.
Proof.
  unfold dlqProcessor. rewrite catch_bind.
  destruct (getMessageCount_spec DLQ w) as (c & Hc & Hpos & _).
  destruct (getMessageCount DLQ w) as [res w1] eqn:Hg. cbn [fst] in Hc. subst res.
  destruct (c =? 0).
  - do 3 eexists. split; [reflexivity|]. cbn. repeat split; lia.
  - rewrite catch_bind.
    destruct (checkServiceHealth_spec hook w1) as (h & hs & body & Hh & _). rewrite Hh.
    destruct h; cbn [negb].
    + rewrite catch_bind.
      destruct (redriveMessages_count GQ DLQ (Z.min c 10) (issue (EFetch hook hs body) w1))
        as (r & f & Hr & Hr0 & Hf0 & Hle).
      destruct (redriveMessages GQ DLQ (Z.min c 10) (issue (EFetch hook hs body) w1))
        as [res w2]. cbn [fst] in Hr. subst res.
      do 3 eexists. split; [reflexivity|]. cbn.
      rewrite Z2Nat.id in Hle by lia. repeat split; lia.
    + do 3 eexists. split; [reflexivity|]. cbn. repeat split; lia.
Qed.

(** One redrive step either deletes the message from the DLQ and appends to the greeter queue a message with the same body and the group id (defaulting to 'birthday'), or reports a failure with the DLQ untouched. *)
Theorem redrive_one_outcome (dlq gq : string) (p : Z * SqsMessage) (w : World) :
  dlq <> gq ->
  let '(r, w') := redrive_one dlq gq p w in
  (r = Ok (1, 0) /\
   queue w' dlq = List.filter (fun q => negb (q.1 =? p.1)) (queue w dlq) /\
   exists id m, queue w' gq = queue w gq ++ [(id, m)] /\
     sm_body m = sm_body p.2 /\ sm_group m = js_or (sm_group p.2) "birthday") \/
  (r = Ok (0, 1) /\ queue w' dlq = queue w dlq).
Proof.
  intros Hne.
  unfold redrive_one, catch, bind, now, sqs_send, sqs_delete, aws_call, ret.
  destruct (w_fails w (w_calls w)); cbn.
  - right. split; reflexivity.
  - destruct (w_fails w (S (w_calls w))); cbn.
    + right. split; [reflexivity|]. unfold queue. cbn.
      rewrite lookup_insert_ne by congruence. reflexivity.
    + left. split; [reflexivity|]. split.
      * unfold queue. cbn. rewrite lookup_insert_eq. cbn.
        rewrite lookup_insert_ne by congruence. reflexivity.
      * do 2 eexists. split.
        -- unfold queue. cbn. rewrite lookup_insert_ne by congruence.
           rewrite lookup_insert_eq. reflexivity.
        -- split; reflexivity.
Qed.

Lemma redrive_one_outcome_witness :
  "DLQ" <> "GQ" /\
  fst (redrive_one "DLQ" "GQ" (7, mkSqsMessage ada_msg "" "")
         (set_queues {[ "DLQ" := [(7, mkSqsMessage ada_msg "" "")] ]} (world0 (fun _ => false) (fun _ => None))))
  = Ok (1, 0).
Proof.
  split; [discriminate|].
  pose proof (redrive_one_outcome "DLQ" "GQ" (7, mkSqsMessage ada_msg "" "")
    (set_queues {[ "DLQ" := [(7, mkSqsMessage ada_msg "" "")] ]} (world0 (fun _ => false) (fun _ => None)))
    ltac:(discriminate)) as H.
  vm_compute in H. vm_compute. reflexivity.
Defined.

(** getQueueUrl either resolves the queue and caches it, after which a second call returns at once without a remote call, or throws and leaves the cache as it was. *)
Theorem getQueueUrl_cached (name : string) (w : World) :
  (fst (getQueueUrl name w) = Ok name /\
   getQueueUrl name (snd (getQueueUrl name w)) = (Ok name, snd (getQueueUrl name w))) \/
  (exists e, fst (getQueueUrl name w) = Throw e /\
   w_url_cache (snd (getQueueUrl name w)) = w_url_cache w).
Proof.
  destruct (getQueueUrl name w) as [r w1] eqn:Hq. cbn [fst snd].
  unfold getQueueUrl in Hq. destruct (decide (name ∈ w_url_cache w)) as [Hin|Hout].
  - injection Hq as <- <-. left. split; [reflexivity|]. unfold getQueueUrl.
    destruct (decide (name ∈ w_url_cache w)); [reflexivity|contradiction].
  - unfold aws_call in Hq. destruct (w_fails w (w_calls w)); injection Hq as <- <-.
    + right. eexists. split; reflexivity.
    + left. split; [reflexivity|]. unfold getQueueUrl. cbn.
      destruct (decide (name ∈ name :: w_url_cache w)) as [_|Hn]; [reflexivity|].
      exfalso. apply Hn. left.
Qed.

Lemma apply_health_failed_sets_idem (it : Item) (t : Z) :
  apply_sets (apply_sets it (health_failed_sets t)) (health_failed_sets t)
  = apply_sets it (health_failed_sets t).
Proof.
  unfold apply_sets, health_failed_sets. cbn [fold_left].
  apply map_eq. intros i. rewrite !lookup_insert.
  repeat destruct (decide _); reflexivity.
Qed.

Lemma mark_stuck_ok (nowMs : Z) (ev : Item) (w : World) :
  exists a, fst (mark_stuck nowMs ev w) = Ok a /\
  w_others (snd (mark_stuck nowMs ev w)) = w_others w /\
  w_clock (snd (mark_stuck nowMs ev w)) = w_clock w /\
  (a = MarkedFailedForRetry -> exists t, attr_instant ev "sendingAttemptedAt" = Some t /\
                                HEALTH_STUCK_TIMEOUT_MS < nowMs - t).
Proof.
  unfold mark_stuck. destruct (attr_instant ev "sendingAttemptedAt") as [t|] eqn:Ht.
  - destruct (HEALTH_STUCK_TIMEOUT_MS <? nowMs - t) eqn:Hlt.
    + unfold catch, bind, dynamo_update, aws_call.
      destruct (w_fails w (w_calls w)); cbn.
      * exists Monitoring. repeat split; try reflexivity. discriminate.
      * exists MarkedFailedForRetry. repeat split; try reflexivity.
        intros _. exists t. split; [reflexivity|]. apply Z.ltb_lt, Hlt.
    + exists Monitoring. repeat split; try reflexivity. discriminate.
  - exists Monitoring. repeat split; try reflexivity. discriminate.
Qed.



Lemma healthCheck_unfold (w : World) :
  healthCheck w =
  catch (missedEvents <- dynamo_query ALL_EVENTS_INDEX (missed_query (w_clock w) (year_of_ms (w_clock w))) ;;
         stuckItems <- dynamo_query ALL_EVENTS_INDEX stuck_query ;;
         stuckEvents <- mark_all (w_clock w) stuckItems ;;
         let status := health_status missedEvents stuckEvents in
         ret (health_status_code status, Some (mkHealthReport status missedEvents stuckEvents)))
        (fun _ => ret (500, None)) w.
Proof. reflexivity. Qed.



Lemma index_items_in (s : Store) (it : Item) :
  In it (index_items s) -> exists k, s !! k = Some it.
Proof.
  unfold index_items. intros Hin.
  eapply Permutation_in in Hin; [|apply merge_sort_Permutation].
  apply filter_In in Hin as [Hin _]. apply in_map_iff in Hin as ([k it'] & <- & Hk).
  exists k. apply elem_of_map_to_list, list_elem_of_In. exact Hk.
Qed.

Lemma stuck_query_in (s : Store) (ev : Item) :
  well_keyed s -> In ev (stuck_query s) ->
  exists k, s !! k = Some ev /\ attr_str ev "PK" = Some k.1 /\ attr_str ev "SK" = Some k.2 /\
            ev !! "sendingStatus" = Some (AStatus Sending).
Proof.
  intros Hwk Hin. unfold stuck_query in Hin. apply filter_In in Hin as [Hin Hc].
  apply index_items_in in Hin as [k Hk]. exists k.
  destruct (Hwk k ev Hk) as [Hp Hs]. repeat split; try assumption.
  destruct (ev !! "sendingStatus") as [[| | | | | | []]|]; try discriminate; reflexivity.
Qed.

Lemma dynamo_query_step {A} (idx : string) (page : Store -> A) (w : World) :
  (forall n s, w_others w n s = s) ->
  dynamo_query idx page w =
  (if w_fails w (w_calls w) then Throw (Error "AWS service error") else Ok (page (w_store w)),
   issue (EDynamoQuery idx) w).
Proof.
  intros Hid. unfold dynamo_query, aws_call, seen. rewrite Hid.
  destruct (w_fails w (w_calls w)); destruct w; reflexivity.
Qed.

Lemma mark_stuck_store (nowMs : Z) (ev : Item) (w : World) (s0 : Store) :
  (forall n s, w_others w n s = s) ->
  (exists k, s0 !! k = Some ev /\ attr_str ev "PK" = Some k.1 /\ attr_str ev "SK" = Some k.2 /\
             ev !! "sendingStatus" = Some (AStatus Sending)) ->
  (forall k, w_store w !! k = s0 !! k \/
     exists it a, s0 !! k = Some it /\ it !! "sendingStatus" = Some (AStatus Sending) /\
       attr_instant it "sendingAttemptedAt" = Some a /\ HEALTH_STUCK_TIMEOUT_MS < nowMs - a /\
       w_store w !! k = Some (apply_sets it (health_failed_sets nowMs))) ->
  (forall k, w_store (snd (mark_stuck nowMs ev w)) !! k = s0 !! k \/
     exists it a, s0 !! k = Some it /\ it !! "sendingStatus" = Some (AStatus Sending) /\
       attr_instant it "sendingAttemptedAt" = Some a /\ HEALTH_STUCK_TIMEOUT_MS < nowMs - a /\
       w_store (snd (mark_stuck nowMs ev w)) !! k = Some (apply_sets it (health_failed_sets nowMs))).
Proof.
  intros Hid ([pk sk] & Hk & Hpk & Hsk & Hst) Hinv. cbn [fst snd] in *.
  unfold mark_stuck. destruct (attr_instant ev "sendingAttemptedAt") as [t|] eqn:Ht; [|exact Hinv].
  destruct (HEALTH_STUCK_TIMEOUT_MS <? nowMs - t) eqn:Hlt; [|exact Hinv].
  unfold catch, bind, dynamo_update, aws_call, seen. rewrite Hid.
  destruct (w_fails w (w_calls w)); cbn [ret snd fst w_store issue set_store]; [exact Hinv|].
  rewrite Hpk, Hsk. cbn [js_hole]. intros j.
  destruct (decide (j = (pk, sk))) as [->|Hne].
  - right. exists ev, t. rewrite lookup_insert_eq. repeat split; try assumption.
    + apply Z.ltb_lt, Hlt.
    + destruct (Hinv (pk, sk)) as [E|(it & a & E1 & _ & _ & _ & E2)].
      * rewrite E, Hk. reflexivity.
      * rewrite Hk in E1. injection E1 as <-. rewrite E2. cbn [default].
        unfold id. rewrite apply_health_failed_sets_idem. reflexivity.
  - rewrite lookup_insert_ne by congruence. exact (Hinv j).
Qed.

Lemma mark_all_store (nowMs : Z) (evs : list Item) (w : World) (s0 : Store) :
  (forall n s, w_others w n s = s) ->
  Forall (fun ev => exists k, s0 !! k = Some ev /\ attr_str ev "PK" = Some k.1 /\
            attr_str ev "SK" = Some k.2 /\ ev !! "sendingStatus" = Some (AStatus Sending)) evs ->
  (forall k, w_store w !! k = s0 !! k \/
     exists it a, s0 !! k = Some it /\ it !! "sendingStatus" = Some (AStatus Sending) /\
       attr_instant it "sendingAttemptedAt" = Some a /\ HEALTH_STUCK_TIMEOUT_MS < nowMs - a /\
       w_store w !! k = Some (apply_sets it (health_failed_sets nowMs))) ->
  (forall k, w_store (snd (mark_all nowMs evs w)) !! k = s0 !! k \/
     exists it a, s0 !! k = Some it /\ it !! "sendingStatus" = Some (AStatus Sending) /\
       attr_instant it "sendingAttemptedAt" = Some a /\ HEALTH_STUCK_TIMEOUT_MS < nowMs - a /\
       w_store (snd (mark_all nowMs evs w)) !! k = Some (apply_sets it (health_failed_sets nowMs))).
Proof.
  revert w. induction evs as [|ev evs IH]; intros w Hid Hall Hinv; [exact Hinv|].
  inversion Hall as [|? ? Hev Hrest]; subst.
  pose proof (mark_stuck_store nowMs ev w s0 Hid Hev Hinv) as Hinv1.
  destruct (mark_stuck_ok nowMs ev w) as (a & Ha & Ho & _).
  destruct (mark_stuck nowMs ev w) as [r w1] eqn:E1. cbn [fst snd] in *. subst r.
  assert (Hid1 : forall n s, w_others w1 n s = s) by (intros; rewrite Ho; apply Hid).
  pose proof (IH w1 Hid1 Hrest Hinv1) as Hinv2.
  cbn [mark_all]. unfold bind. rewrite E1.
  destruct (mark_all nowMs evs w1) as [[l|e] w2]; exact Hinv2.
Qed.

(** With no concurrent writers on a table whose rows carry their own keys, the only rows healthCheck changes are existing rows in [sending] whose attempt is more than 10 minutes old; each becomes [failed] with [markedFailedAt], [failureReason] and [updatedAt] set to the check's time. *)
Lemma healthCheck_writes (w : World) :
  (forall n s, w_others w n s = s) -> well_keyed (w_store w) ->
  forall k, w_store (snd (healthCheck w)) !! k = w_store w !! k \/
    exists it a, w_store w !! k = Some it /\ it !! "sendingStatus" = Some (AStatus Sending) /\
      attr_instant it "sendingAttemptedAt" = Some a /\ HEALTH_STUCK_TIMEOUT_MS < w_clock w - a /\
      w_store (snd (healthCheck w)) !! k = Some (apply_sets it (health_failed_sets (w_clock w))).
Proof.
  intros Hid Hwk.
  rewrite healthCheck_unfold, catch_bind, dynamo_query_step by assumption.
  destruct (w_fails w (w_calls w)); cbn [ret snd w_store issue]; [left; reflexivity|].
  rewrite catch_bind, dynamo_query_step by (cbn; assumption).
  destruct (w_fails _ _); cbn [ret snd w_store issue]; [left; reflexivity|].
  rewrite catch_bind.
  set (w2 := issue _ (issue _ w)).
  assert (Hid2 : forall n s, w_others w2 n s = s) by (intros; apply Hid).
  assert (Hall : Forall (fun ev => exists k, w_store w !! k = Some ev /\ attr_str ev "PK" = Some k.1 /\
            attr_str ev "SK" = Some k.2 /\ ev !! "sendingStatus" = Some (AStatus Sending))
            (stuck_query (w_store w))).
  { apply List.Forall_forall. intros ev Hin. apply stuck_query_in; [exact Hwk|exact Hin]. }
  assert (Hinv0 : forall k, w_store w2 !! k = w_store w !! k \/
     exists it a, w_store w !! k = Some it /\ it !! "sendingStatus" = Some (AStatus Sending) /\
       attr_instant it "sendingAttemptedAt" = Some a /\ HEALTH_STUCK_TIMEOUT_MS < w_clock w - a /\
       w_store w2 !! k = Some (apply_sets it (health_failed_sets (w_clock w))))
    by (intros; left; reflexivity).
  pose proof (mark_all_store (w_clock w) _ w2 (w_store w) Hid2 Hall Hinv0) as Hinv.
  destruct (mark_all (w_clock w) (stuck_query (w_store w)) w2) as [[l|e] w3]; exact Hinv.
Qed.


Lemma healthCheck_writes_witness :
  let W := world_at (ada_event_sending (t0 - 20 * 60000)) (fun _ => false) (fun _ => Some 200) in
  let k := ("USER#u1", "EVENT#birthday") in
  w_store (snd (healthCheck W)) !! k = w_store W !! k \/
    exists it a, w_store W !! k = Some it /\ it !! "sendingStatus" = Some (AStatus Sending) /\
      attr_instant it "sendingAttemptedAt" = Some a /\ HEALTH_STUCK_TIMEOUT_MS < w_clock W - a /\
      w_store (snd (healthCheck W)) !! k = Some (apply_sets it (health_failed_sets (w_clock W))).
Proof.
  intros W k. apply (healthCheck_writes W); [intros n s; reflexivity|].
  apply (bool_decide_unpack _). vm_compute. reflexivity.
Defined.

Lemma index_items_props (s : Store) (it : Item) :
  In it (index_items s) ->
  (exists k, s !! k = Some it) /\ attr_str it "GSI1PK" = Some "EVENT" /\
  is_Some (attr_instant it "notifyUtc").
Proof.
  intros Hin. split; [apply index_items_in, Hin|].
  unfold index_items in Hin.
  eapply Permutation_in in Hin; [|apply merge_sort_Permutation].
  apply filter_In in Hin as [_ Hc]. apply andb_true_iff in Hc as [H1 H2].
  apply bool_decide_eq_true in H1, H2. split; assumption.
Qed.

Lemma frame_schedule_item_sent (GQ : string) (L : list Item) (it : Item) :
  In it L -> frame (sent_from L) (schedule_item GQ it).
Proof.
  intros Hin. unfold schedule_item. apply frame_catch; [|intros; apply frame_ret].
  apply frame_bind; [apply frame_dynamo_get; reflexivity|intros r].
  destruct (r ≫= _) as [u|].
  - apply frame_bind; [|intros; apply frame_ret].
    unfold enqueueGreeterMessage.
    apply frame_bind; [apply frame_now|intros t].
    apply frame_bind; [apply frame_getQueueUrl; reflexivity|intros url].
    apply frame_sqs_send. cbn [sent_from sm_body greeter_message gm_pk gm_sk gm_lastSentYear
                               ge_pk ge_sk ge_lastSentYear].
    apply existsb_exists. exists it. split; [exact Hin|].
    rewrite !String.eqb_refl, Z.eqb_refl. reflexivity.
  - apply frame_bind; [apply frame_log; reflexivity|intros; apply frame_ret].
Qed.

Lemma frame_schedule_items_sent (GQ : string) (L its : list Item) :
  (forall it, In it its -> In it L) -> frame (sent_from L) (schedule_items GQ its).
Proof.
  induction its as [|it its IH]; intros Hsub; simpl; [apply frame_ret|].
  apply frame_bind; [apply frame_schedule_item_sent, Hsub; left; reflexivity|intros r1].
  apply frame_bind; [apply IH; intros x Hx; apply Hsub; right; exact Hx|intros r2].
  apply frame_ret.
Qed.

Lemma due_page_in (nowUtc currentYear : Z) (start : nat) (s : Store) (it : Item) :
  In it (fst (due_page nowUtc currentYear start s)) ->
  In it (List.filter (fun it => (default 0 (attr_instant it "notifyUtc") <=? nowUtc) &&
           match attr_num it "lastSentYear" with None => true | Some y => y <? currentYear end)
         (index_items s)).
Proof.
  unfold due_page. cbn [fst]. intros Hin.
  apply filter_In in Hin as [Hin Hy].
  assert (Hin' : In it (List.filter (fun it => default 0 (attr_instant it "notifyUtc") <=? nowUtc)
                          (index_items s))).
  { set (L := List.filter _ _) in Hin |- *.
    rewrite <- (List.firstn_skipn start L). apply in_or_app. right.
    rewrite <- (List.firstn_skipn 100 (skipn start L)). apply in_or_app. left. exact Hin. }
  apply filter_In in Hin' as [Hidx Hn]. apply filter_In. split; [exact Hidx|].
  rewrite Hn. exact Hy.
Qed.

Lemma scheduler_loop_sent (GQ : string) (fuel : nat) (nowUtc currentYear : Z)
  (k : option nat) (st : SchedulerStats) (w : World) :
  (forall n s, w_others w n s = s) ->
  exists l, w_trace (snd (scheduler_loop GQ fuel nowUtc currentYear k st w)) = l ++ w_trace w /\
    forallb (sent_from (List.filter (fun it => (default 0 (attr_instant it "notifyUtc") <=? nowUtc) &&
           match attr_num it "lastSentYear" with None => true | Some y => y <? currentYear end)
         (index_items (w_store w)))) l = true.
Proof.
  revert k st w. induction fuel as [|fuel IH]; intros k st w Hid.
  - exists []. split; reflexivity.
  - cbn [scheduler_loop]. unfold bind at 1. rewrite dynamo_query_step by exact Hid.
    destruct (w_fails w (w_calls w)); cbn [snd w_trace issue].
    { exists [EDynamoQuery ALL_EVENTS_INDEX]. split; reflexivity. }
    set (w1 := issue _ w).
    set (D := List.filter _ (index_items (w_store w))).
    set (page := due_page nowUtc currentYear (default 0%nat k) (w_store w)).
    assert (Hsub : forall it, In it page.1 -> In it D) by (intros it; apply due_page_in).
    destruct (frame_schedule_items_sent GQ D page.1 Hsub w1) as (Ho & Hs & l1 & Ht1 & Hp1).
    unfold bind.
    destruct (schedule_items GQ page.1 w1) as [[counts|e] w2]; cbn [snd] in *.
    + assert (Hid2 : forall n s, w_others w2 n s = s) by (intros; rewrite Ho; apply Hid).
      assert (Hs2 : w_store w2 = w_store w) by (apply Hs; exact Hid).
      destruct page.2 as [n|].
      * destruct (IH (Some n) (mkSchedulerStats (totalUsersProcessed st + counts.1)
                   (totalEnqueueFailures st + counts.2) (totalPages st + 1)) w2 Hid2)
          as (l2 & Ht2 & Hp2).
        rewrite Hs2 in Hp2. fold D in Hp2.
        exists (l2 ++ l1 ++ [EDynamoQuery ALL_EVENTS_INDEX]). split.
        -- rewrite Ht2, Ht1. cbn. rewrite <- !app_assoc. reflexivity.
        -- rewrite !forallb_app, Hp1, Hp2. reflexivity.
      * exists (l1 ++ [EDynamoQuery ALL_EVENTS_INDEX]). split.
        -- cbn [ret snd]. rewrite Ht1. cbn. rewrite <- !app_assoc. reflexivity.
        -- rewrite !forallb_app, Hp1. reflexivity.
    + exists (l1 ++ [EDynamoQuery ALL_EVENTS_INDEX]). split.
      * rewrite Ht1. cbn. rewrite <- !app_assoc. reflexivity.
      * rewrite !forallb_app, Hp1. reflexivity.
Qed.

(** With no concurrent writers, every message a scheduler sweep sends is built from a stored index row whose [notifyUtc] is at or before the sweep's time and whose [lastSentYear] is absent or below the current year, carrying that row's key and [lastSentYear] (0 if absent). *)
Theorem scheduler_sends_only_due (GQ : string) (fuel : nat) (w : World) :
  (forall n s, w_others w n s = s) ->
  exists l, w_trace (snd (scheduler GQ fuel w)) = l ++ w_trace w /\
  forall url m, In (ESqsSend url m) l ->
    exists k it t, w_store w !! k = Some it /\ attr_str it "GSI1PK" = Some "EVENT" /\
      attr_instant it "notifyUtc" = Some t /\ t <= w_clock w /\
      (forall y, attr_num it "lastSentYear" = Some y -> y < year_of_ms (w_clock w)) /\
      gm_pk (sm_body m) = js_hole (attr_str it "PK") /\
      gm_sk (sm_body m) = js_hole (attr_str it "SK") /\
      gm_lastSentYear (sm_body m) = default 0 (attr_num it "lastSentYear").
Proof.
  intros Hid.
  destruct (scheduler_loop_sent GQ fuel (w_clock w) (year_of_ms (w_clock w)) None
              (mkSchedulerStats 0 0 0) w Hid) as (l & Ht & Hp).
  exists l. split; [exact Ht|]. intros url m Hin.
  rewrite forallb_forall in Hp. specialize (Hp _ Hin). cbn [sent_from] in Hp.
  apply existsb_exists in Hp as (it & Hit & Hm).
  apply filter_In in Hit as [Hidx Hc]. apply andb_true_iff in Hc as [Hn Hy].
  destruct (index_items_props _ _ Hidx) as ([k Hk] & Hg & [t Ht0]).
  apply andb_true_iff in Hm as [Hm Hl]. apply andb_true_iff in Hm as [Hpk Hsk].
  apply String.eqb_eq in Hpk, Hsk. apply Z.eqb_eq in Hl.
  exists k, it, t. repeat split; try assumption.
  - rewrite Ht0 in Hn. apply Z.leb_le, Hn.
  - intros y Hy'. rewrite Hy' in Hy. apply Z.ltb_lt, Hy.
Qed.

Lemma scheduler_sends_only_due_witness :
  let W := world0 (fun _ => false) (fun _ => Some 200) in
  exists l, w_trace (snd (scheduler "greeter" 5 W)) = l ++ w_trace W /\
  forall url m, In (ESqsSend url m) l ->
    exists k it t, w_store W !! k = Some it /\ attr_str it "GSI1PK" = Some "EVENT" /\
      attr_instant it "notifyUtc" = Some t /\ t <= w_clock W /\
      (forall y, attr_num it "lastSentYear" = Some y -> y < year_of_ms (w_clock W)) /\
      gm_pk (sm_body m) = js_hole (attr_str it "PK") /\
      gm_sk (sm_body m) = js_hole (attr_str it "SK") /\
      gm_lastSentYear (sm_body m) = default 0 (attr_num it "lastSentYear").
Proof.
  intros W. apply (scheduler_sends_only_due "greeter" 5 W). intros n s. reflexivity.
Defined.

Lemma schedule_item_result (GQ : string) (it : Item) (w : World) :
  fst (schedule_item GQ it w) = Ok (1, 0) \/ fst (schedule_item GQ it w) = Ok (0, 0) \/
  fst (schedule_item GQ it w) = Ok (0, 1).
Proof.
  unfold schedule_item, catch, bind.
  destruct (dynamo_get _ _ w) as [[r|e] w1]; [|right; right; reflexivity].
  destruct (r ≫= _) as [u|].
  - destruct (enqueueGreeterMessage GQ u _ w1) as [[[]|e] w2]; [left|right; right]; reflexivity.
  - right; left. reflexivity.
Qed.

Lemma schedule_items_counts (GQ : string) (its : list Item) (w : World) :
  exists p f, fst (schedule_items GQ its w) = Ok (p, f) /\ 0 <= p /\ 0 <= f /\
    p + f <= Z.of_nat (length its).
Proof.
  revert w. induction its as [|it its IH]; intros w.
  - exists 0, 0. cbn. split; [reflexivity|lia].
  - cbn [schedule_items]. unfold bind.
    pose proof (schedule_item_result GQ it w) as Hr.
    destruct (schedule_item GQ it w) as [r w1]. cbn [fst] in Hr.
    destruct (IH w1) as (p & f & Hpf & Hp & Hf & Hle).
    assert (Hr' : exists a b, r = Ok (a, b) /\ 0 <= a /\ 0 <= b /\ a + b <= 1)
      by (destruct Hr as [->|[->| ->]]; eexists _, _; (split; [reflexivity|lia])).
    destruct Hr' as (a & b & -> & Ha & Hb & Hab).
    destruct (schedule_items GQ its w1) as [r2 w2]. cbn [fst] in Hpf. subst r2.
    exists (a + p), (b + f). cbn [fst ret length]. split; [reflexivity|]. lia.
Qed.

Lemma due_page_length (nowUtc currentYear : Z) (start : nat) (s : Store) :
  (length (fst (due_page nowUtc currentYear start s)) <= 100)%nat.
Proof.
  unfold due_page. cbn [fst].
  etransitivity; [apply filter_length_le|]. rewrite length_take. lia.
Qed.

Lemma scheduler_loop_stats (GQ : string) (fuel : nat) (nowUtc currentYear : Z)
  (k : option nat) (st st' : SchedulerStats) (w : World) :
  fst (scheduler_loop GQ fuel nowUtc currentYear k st w) = Ok (Some st') ->
  totalPages st < totalPages st' <= totalPages st + Z.of_nat fuel /\
  totalUsersProcessed st <= totalUsersProcessed st' /\
  totalEnqueueFailures st <= totalEnqueueFailures st' /\
  (totalUsersProcessed st' + totalEnqueueFailures st')
    - (totalUsersProcessed st + totalEnqueueFailures st)
  <= 100 * (totalPages st' - totalPages st).
Proof.
  revert k st w. induction fuel as [|fuel IH]; intros k st w H; [discriminate|].
  cbn [scheduler_loop] in H. unfold bind at 1 in H.
  destruct (dynamo_query _ _ w) as [[result|e] w1] eqn:Eq; [|discriminate].
  assert (Hlen : (length result.1 <= 100)%nat).
  { unfold dynamo_query, aws_call in Eq.
    destruct (w_fails w (w_calls w)); [discriminate|]. injection Eq as <- _. apply due_page_length. }
  unfold bind in H.
  destruct (schedule_items_counts GQ result.1 w1) as (p & f & Hpf & Hp & Hf & Hle).
  destruct (schedule_items GQ result.1 w1) as [r w2]. cbn [fst] in Hpf. subst r.
  cbn [fst snd] in *.
  destruct result.2 as [n|].
  - apply IH in H. cbn [totalPages totalUsersProcessed totalEnqueueFailures] in H. lia.
  - cbn in H. injection H as <-. cbn. lia.
Qed.

(** A completed scheduler sweep reports between 1 page and the number of pages allowed, non-negative counters, and at most 100 enqueued-or-failed items per page. *)
Theorem scheduler_stats_bounds (GQ : string) (fuel : nat) (w : World) (st : SchedulerStats) :
  fst (scheduler GQ fuel w) = Ok (Some st) ->
  1 <= totalPages st <= Z.of_nat fuel /\
  0 <= totalUsersProcessed st /\ 0 <= totalEnqueueFailures st /\
  totalUsersProcessed st + totalEnqueueFailures st <= 100 * totalPages st.
Proof.
  intros H. apply scheduler_loop_stats in H. cbn in H. lia.
Qed.

Lemma scheduler_stats_bounds_witness :
  let W := world0 (fun _ => false) (fun _ => Some 200) in
  fst (scheduler "greeter" 5 W) = Ok (Some (mkSchedulerStats 1 0 1)) /\
  1 <= 1 <= Z.of_nat 5 /\ 0 <= 1 /\ 0 <= 0 /\ 1 + 0 <= 100 * 1.
Proof.
  intros W.
  assert (H : fst (scheduler "greeter" 5 W) = Ok (Some (mkSchedulerStats 1 0 1)))
    by (vm_compute; reflexivity).
  split; [exact H|]. exact (scheduler_stats_bounds "greeter" 5 W _ H).
Defined.

Lemma fetch_bound_mono {A} (n m : nat) (c : M A) :
  (n <= m)%nat -> fetch_bound n c -> fetch_bound m c.
Proof. intros Hle Hc w. destruct (Hc w) as (l & Ht & Hl). exists l. split; [exact Ht|lia]. Qed.

Lemma fetch_bound_ret {A} (a : A) : fetch_bound 0 (ret a).
Proof. intros w. exists []. split; reflexivity. Qed.

Lemma fetch_bound_throw {A} (e : Exn) : fetch_bound 0 (throw (A:=A) e).
Proof. intros w. exists []. split; reflexivity. Qed.

Lemma fetch_bound_now : fetch_bound 0 now.
Proof. intros w. exists []. split; reflexivity. Qed.

Lemma fetch_bound_log (l : LogLine) : fetch_bound 0 (log l).
Proof. intros w. exists [ELog l]. split; reflexivity. Qed.

Lemma fetch_bound_fetch (url : string) (hs : list (string * string)) (body : string) :
  fetch_bound 1 (fetch url hs body).
Proof.
  intros w. exists [EFetch url hs body]. unfold fetch.
  destruct (w_http w (w_calls w)); split; cbn; auto.
Qed.

Lemma fetch_bound_bind {A B} (n m : nat) (c : M A) (k : A -> M B) :
  fetch_bound n c -> (forall a, fetch_bound m (k a)) -> fetch_bound (n + m) (bind c k).
Proof.
  intros Hc Hk w. unfold bind. destruct (Hc w) as (l1 & Ht1 & Hl1).
  destruct (c w) as [[a|e] w1]; cbn [snd] in *.
  - destruct (Hk a w1) as (l2 & Ht2 & Hl2). exists (l2 ++ l1).
    rewrite Ht2, Ht1, app_assoc, List.filter_app, length_app. split; [reflexivity|lia].
  - exists l1. split; [exact Ht1|lia].
Qed.

Lemma fetch_bound_catch {A} (n m : nat) (c : M A) (h : Exn -> M A) :
  fetch_bound n c -> (forall e, fetch_bound m (h e)) -> fetch_bound (n + m) (catch c h).
Proof.
  intros Hc Hh w. unfold catch. destruct (Hc w) as (l1 & Ht1 & Hl1).
  destruct (c w) as [[a|e] w1]; cbn [snd] in *.
  - exists l1. split; [exact Ht1|lia].
  - destruct (Hh e w1) as (l2 & Ht2 & Hl2). exists (l2 ++ l1).
    rewrite Ht2, Ht1, app_assoc, List.filter_app, length_app. split; [reflexivity|lia].
Qed.

Lemma fetch_bound_dynamo_get (pk sk : string) : fetch_bound 0 (dynamo_get pk sk).
Proof.
  intros w. exists [EDynamoGet pk sk]. unfold dynamo_get, aws_call.
  destruct (w_fails w (w_calls w)); split; reflexivity.
Qed.

Lemma fetch_bound_dynamo_update (pk sk : string) (sets : list (string * AttrValue))
  (cond : option (option Item -> bool)) : fetch_bound 0 (dynamo_update pk sk sets cond).
Proof.
  intros w. exists [EDynamoUpdate pk sk sets (if cond then true else false)].
  unfold dynamo_update, aws_call.
  destruct (w_fails w (w_calls w)); [split; reflexivity|].
  destruct (match cond with Some c => _ | None => true end); split; reflexivity.
Qed.

Ltac fetch_bound_step :=
  first [ apply fetch_bound_ret | apply fetch_bound_throw | apply fetch_bound_now
        | apply fetch_bound_log | apply fetch_bound_dynamo_get | apply fetch_bound_dynamo_update
        | apply (fetch_bound_bind 0 0) | apply (fetch_bound_catch 0 0) ].

Lemma fetch_bound_prestep (m : GreeterMessage) : fetch_bound 0 (sender_prestep m).
Proof.
  unfold sender_prestep. apply (fetch_bound_bind 0 0); [apply fetch_bound_dynamo_get|intros r].
  destruct r as [ev|]; [|repeat fetch_bound_step].
  destruct (_ && _); [repeat fetch_bound_step; intros; repeat fetch_bound_step|].
  destruct (attr_status ev "sendingStatus") as [[]|], (attr_instant ev "sendingAttemptedAt");
    try apply fetch_bound_ret.
  apply (fetch_bound_bind 0 0); [apply fetch_bound_now|intros t].
  destruct (_ <? _); repeat (fetch_bound_step || intros).
Qed.

Lemma fetch_bound_claim tzdb (m : GreeterMessage) (c : Z) : fetch_bound 0 (sender_claim tzdb m c).
Proof.
  unfold sender_claim. apply (fetch_bound_bind 0 0); [apply fetch_bound_now|intros t].
  destruct (next_notify_utc tzdb m t); [|apply fetch_bound_throw].
  apply (fetch_bound_catch 0 0); [repeat (fetch_bound_step || intros)|].
  intros []; repeat (fetch_bound_step || intros).
Qed.

Lemma fetch_bound_deliver hook (m : GreeterMessage) : fetch_bound 1 (sender_deliver hook m).
Proof.
  unfold sender_deliver. apply (fetch_bound_bind 1 0); [apply fetch_bound_fetch|intros status].
  destruct (negb _); repeat (fetch_bound_step || intros).
Qed.

Lemma fetch_bound_sender_record tzdb hook (m : GreeterMessage) :
  fetch_bound 1 (sender_record tzdb hook m).
Proof.
  unfold sender_record. apply (fetch_bound_catch 1 0).
  - apply (fetch_bound_bind 0 1); [apply fetch_bound_prestep|intros [c|]].
    + unfold claim_and_deliver. apply (fetch_bound_bind 0 1); [apply fetch_bound_claim|intros []].
      * apply fetch_bound_deliver.
      * apply (fetch_bound_mono 0); [lia|apply fetch_bound_ret].
    + apply (fetch_bound_mono 0); [lia|apply fetch_bound_ret].
  - intros []; unfold sender_catch; repeat (fetch_bound_step || intros).
Qed.

(** A sender invocation over a batch of [n] records makes at most [n] webhook POSTs: at most one per record. *)
Theorem sender_posts_at_most_once_per_record tzdb hook (records : list GreeterMessage) (w : World) :
  exists l, w_trace (snd (sender tzdb hook records w)) = l ++ w_trace w /\
    (length (List.filter is_fetch l) <= length records)%nat.
Proof.
  revert w. induction records as [|m records IH]; intros w.
  - exists []. split; [reflexivity|cbn; lia].
  - assert (Hb : fetch_bound (1 + length records) (sender tzdb hook (m :: records))).
    { cbn [sender]. apply fetch_bound_bind; [apply fetch_bound_sender_record|intros _].
      intros w'. exact (IH w'). }
    exact (Hb w).
Qed.

Lemma civil_roundtrip_window : check_range civil_roundtrip_ok 0 400 = true.
Proof. vm_compute. reflexivity. Qed.

Lemma days_in_month_shift (j e m : Z) : days_in_month (j + e * 400) m = days_in_month j m.
Proof.
  unfold days_in_month, is_leap.
  replace (j + e * 400) with (j + (e * 100) * 4) at 1 by lia.
  rewrite Z.mod_add by lia.
  replace (j + e * 400) with (j + (e * 4) * 100) at 1 by lia.
  rewrite Z.mod_add by lia.
  rewrite Z.mod_add by lia. reflexivity.
Qed.

Lemma civil_roundtrip (y m d : Z) :
  1 <= m <= 12 -> 1 <= d <= days_in_month y m ->
  civil_from_days (days_from_civil y m d) = (y, m, d).
Proof.
  intros Hm Hd.
  set (e := y / 400). set (j := y - e * 400).
  assert (Hj : 0 <= j < 0 + Z.of_nat 400).
  { unfold j, e. pose proof (Z.mod_pos_bound y 400 ltac:(lia)).
    rewrite Z.mod_eq in H by lia. simpl. lia. }
  assert (Hy : y = j + e * 400) by (unfold j; lia).
  rewrite Hy in Hd. rewrite days_in_month_shift in Hd.
  pose proof (check_range_ok _ _ _ civil_roundtrip_window j Hj) as H.
  unfold civil_roundtrip_ok in H. rewrite forallb_forall in H.
  assert (Hin : In m [1; 2; 3; 4; 5; 6; 7; 8; 9; 10; 11; 12]) by (simpl; lia).
  specialize (H m Hin). rewrite forallb_forall in H.
  assert (Hdin : In d (map Z.of_nat (seq 1 (Z.to_nat (days_in_month j m))))).
  { apply in_map_iff. exists (Z.to_nat d). split; [lia|]. apply in_seq. lia. }
  specialize (H d Hdin).
  rewrite Hy, days_from_civil_shift, civil_from_days_shift.
  destruct (civil_from_days (days_from_civil j m d)) as [[y' m'] d'].
  apply andb_true_iff in H as [H H3]. apply andb_true_iff in H as [H1 H2].
  apply Z.eqb_eq in H1, H2, H3. rewrite H1, H2, H3. reflexivity.
Qed.

Lemma notify_for_year_reading tzo (b : Date) (tz : string) (t : HHMM) (y n : Z) :
  1 <= d_month b <= 12 -> 1 <= d_day b -> 0 <= t_hour t <= 23 -> 0 <= t_minute t <= 59 ->
  notify_for_year tzo b tz t y = Some n ->
  exists off, tzo tz (n + off * ms_per_minute) = Some off /\
    civil_from_days ((n + off * ms_per_minute) / ms_per_day)
      = (y, d_month b, Z.min (d_day b) (days_in_month y (d_month b))) /\
    (n + off * ms_per_minute) mod ms_per_day = t_hour t * 3600000 + t_minute t * ms_per_minute.
Proof.
  intros Hm Hd Hh Hmi. unfold notify_for_year, dayjs_tz_utc.
  destruct (tzo tz _) as [off|] eqn:Hoff; [|discriminate].
  intros E. injection E as <-. exists off.
  set (D := dayjs_set_year b y) in *.
  assert (HL : local_ms D t - off * ms_per_minute + off * ms_per_minute = local_ms D t) by lia.
  rewrite HL. split; [exact Hoff|].
  assert (Hq : local_ms D t / ms_per_day = days_from_civil y (d_month b)
                  (Z.min (d_day b) (days_in_month y (d_month b)))
          /\ local_ms D t mod ms_per_day = t_hour t * 3600000 + t_minute t * ms_per_minute).
  { unfold local_ms, D, dayjs_set_year, ms_per_minute, ms_per_day. cbn [d_year d_month d_day].
    split; symmetry; [apply Z.div_unique with (t_hour t * 3600000 + t_minute t * 60000)
           |apply Z.mod_unique with (days_from_civil y (d_month b)
                  (Z.min (d_day b) (days_in_month y (d_month b))))]; lia. }
  destruct Hq as [Hq Hr]. rewrite Hq. split; [|exact Hr].
  apply civil_roundtrip; [exact Hm|]. pose proof (days_in_month_pos y (d_month b)). lia.
Qed.

(** For a valid month, a day of at least 1 and a valid 'HH:mm' time, the instant computeNotifyUtc returns reads, in the event's zone at the offset the zone has there, as the event's month and day (clamped to the month's length) at 'HH:mm', in the reference's UTC year or the next. *)
Theorem computeNotifyUtc_local_reading tzo (b : Date) (tz : string) (t : HHMM) (r n : Z) :
  1 <= d_month b <= 12 -> 1 <= d_day b -> 0 <= t_hour t <= 23 -> 0 <= t_minute t <= 59 ->
  computeNotifyUtc tzo b tz t r = Some n ->
  exists y off, (y = year_of_ms r \/ y = year_of_ms r + 1) /\
    tzo tz (n + off * ms_per_minute) = Some off /\
    civil_from_days ((n + off * ms_per_minute) / ms_per_day)
      = (y, d_month b, Z.min (d_day b) (days_in_month y (d_month b))) /\
    (n + off * ms_per_minute) mod ms_per_day = t_hour t * 3600000 + t_minute t * ms_per_minute.
Proof.
  intros Hm Hd Hh Hmi. unfold computeNotifyUtc.
  destruct (notify_for_year tzo b tz t (year_of_ms r)) as [n0|] eqn:E0; [|discriminate].
  destruct (n0 <? r); intros E.
  - exists (year_of_ms r + 1). apply notify_for_year_reading in E as (off & H); try assumption.
    exists off. split; [right; reflexivity|exact H].
  - injection E as <-. exists (year_of_ms r).
    apply notify_for_year_reading in E0 as (off & H); try assumption.
    exists off. split; [left; reflexivity|exact H].
Qed.

Lemma computeNotifyUtc_local_reading_witness :
  exists y off, (y = year_of_ms t0 \/ y = year_of_ms t0 + 1) /\
    utc_db "UTC" (t0 + 60 * 3600000 + off * ms_per_minute) = Some off /\
    civil_from_days ((t0 + 60 * 3600000 + off * ms_per_minute) / ms_per_day)
      = (y, 6, Z.min 17 (days_in_month y 6)) /\
    (t0 + 60 * 3600000 + off * ms_per_minute) mod ms_per_day = 21 * 3600000 + 0 * ms_per_minute.
Proof.
  apply (computeNotifyUtc_local_reading utc_db (mkDate 1990 6 17) "UTC" (mkHHMM 21 0)
           t0 (t0 + 60 * 3600000)); try (simpl; lia).
  vm_compute. reflexivity.
Defined.

Lemma batch_slices_spec {A} (k : nat) (items : list A) :
  (1 <= k)%nat ->
  forall fuel i, (length items - i <= fuel)%nat ->
  concat (batch_slices fuel k i items) = drop i items /\
  Forall (fun c => 1 <= length c <= k)%nat (batch_slices fuel k i items) /\
  length (batch_slices fuel k i items) = ((length items - i + k - 1) / k)%nat.
Proof.
  intros Hk. induction fuel as [|fuel IH]; intros i Hf.
  - cbn. rewrite drop_ge by lia. split; [reflexivity|]. split; [constructor|].
    replace (length items - i)%nat with 0%nat by lia.
    symmetry. apply Nat.div_small. lia.
  - cbn [batch_slices]. destruct (Nat.ltb_spec i (length items)) as [Hlt|Hge].
    + destruct (IH (i + k)%nat ltac:(lia)) as (Hc & Hl & Hn).
      cbn [concat length]. rewrite Hc. split; [|split].
      * rewrite <- (take_drop k (drop i items)) at 2. rewrite drop_drop. reflexivity.
      * constructor; [|exact Hl]. rewrite length_take, length_drop. lia.
      * rewrite Hn.
        replace (length items - i + k - 1)%nat with ((length items - i - 1) + 1 * k)%nat by lia.
        rewrite Nat.div_add by lia.
        destruct (Nat.le_gt_cases k (length items - i)).
        -- replace (length items - (i + k) + k - 1)%nat with (length items - i - 1)%nat by lia.
           lia.
        -- rewrite (Nat.div_small (length items - i - 1)) by lia.
           rewrite Nat.div_small by lia. lia.
    + rewrite drop_ge by lia. split; [reflexivity|]. split; [constructor|].
      replace (length items - i)%nat with 0%nat by lia.
      symmetry. apply Nat.div_small. lia.
Qed.

(** The BatchWrite loops of createUser and deleteUser send every item exactly once and in order, in [ceil(n/25)] batches of 1 to 25 items each. *)
Theorem batch_chunks_partition {A} (items : list A) :
  concat (batch_chunks items) = items /\
  Forall (fun c => 1 <= length c <= 25)%nat (batch_chunks items) /\
  length (batch_chunks items) = ((length items + 24) / 25)%nat.
Proof.
  unfold batch_chunks.
  destruct (batch_slices_spec 25 items ltac:(lia) (length items) 0 ltac:(lia)) as (Hc & Hl & Hn).
  rewrite Hc, Hn. split; [reflexivity|]. split; [exact Hl|]. f_equal. lia.
Qed.
